(** * Netflix data loader and exploratory analysis: a shallow embedding

    The two Python modules [data_loader.py] and [exploratory_analysis.py]
    are thin wrappers around pandas.  This development embeds

    - the part of the pandas data model the two classes rely on (typed
      columns with missing entries, a shared row index, boolean-mask row
      selection, [dropna], [fillna], [select_dtypes], [quantile],
      [value_counts]),
    - the object store: a [DataFrame] is a mutable Python object, so tables
      live in a heap and methods pass references around,
    - the methods of [NetflixDataLoader] and [NetflixExploratoryAnalysis]
      as computations in a state-and-exception monad.

    Floating point numbers are modelled by exact rationals ([Q]); the float
    NaN produced by an empty quantile is [None].  The rounding of IEEE
    doubles is not modelled.  What is proved about the arithmetic of
    [detect_outliers] is therefore either stated on data whose every
    intermediate value is exact in binary, or does not depend on the
    values computed: which rows are selected given the bounds reported,
    the order of the quartiles, counts, labels, and what is raised. *)

From Stdlib Require Import Ascii QArith Qround Sorted Permutation Lqa.
From stdpp Require Import gmap strings list fin_maps.

Open Scope string_scope.

(** ** Cells, columns, tables *)

(** The column types pandas can infer for the tables of this program:
    [np.number] covers [Int64] and [Float64]; ['object'] is [ObjectT]. *)
Inductive dtype := Int64 | Float64 | BoolT | ObjectT | Datetime64.

(** One entry of a column.  [NA] stands for NaN, None and NaT alike;
    [Date ns] is a timestamp in nanoseconds since the epoch. *)
Inductive cell :=
| NA
| Num (q : Q)
| Str (s : string)
| Boolean (b : bool)
| Date (ns : Z).

Definition label := nat.

Record Column := { col_dtype : dtype; col_values : list cell }.

(** A [Series] is a column together with the row labels it is indexed by. *)
Record Series := { s_index : list label; s_dtype : dtype; s_values : list cell }.

Record DataFrame := { df_index : list label; df_columns : list (string * Column) }.

Definition column_names (df : DataFrame) : list string := map fst (df_columns df).

(** [len(df)] *)
Definition len (df : DataFrame) : nat := length (df_index df).

(** The representation invariant of a pandas frame: every column has one
    value per row. *)
Definition rectangular (df : DataFrame) : Prop :=
  Forall (fun c => length (col_values (snd c)) = len df) (df_columns df).

Inductive exn :=
| KeyError
| IndexError
| ZeroDivisionError
| UnboundLocalError
| TypeError
| ValueError.

Inductive result (A : Type) :=
| Ok (a : A)
| Raise (e : exn).
Arguments Ok {A} a.
Arguments Raise {A} e.

(** ** pandas primitives *)

Definition isna (c : cell) : bool :=
  match c with NA => true | _ => false end.

Definition notna (c : cell) : bool := negb (isna c).

Definition bool_to_Q (b : bool) : Q := if b then 1%Q else 0%Q.

(** Elementwise [==] of a cell with a scalar.  A missing entry equals
    nothing (NaN semantics); Python's [True == 1] is kept.  A timestamp is
    only compared with a timestamp: frames read by [pd.read_csv] carry no
    [Datetime64] column, and the analyzer never compares one with another
    scalar. *)
Definition cell_eqb (c v : cell) : bool :=
  match c, v with
  | Num a, Num b => Qeq_bool a b
  | Num a, Boolean b | Boolean b, Num a => Qeq_bool a (bool_to_Q b)
  | Str a, Str b => String.eqb a b
  | Boolean a, Boolean b => Bool.eqb a b
  | Date a, Date b => Z.eqb a b
  | _, _ => false
  end.

(** Boolean indexing [xs[mask]]. *)
Fixpoint mask_select {A : Type} (m : list bool) (xs : list A) : list A :=
  match m, xs with
  | b :: m', x :: xs' => if b then x :: mask_select m' xs' else mask_select m' xs'
  | _, _ => []
  end.

Definition Column_mask (m : list bool) (c : Column) : Column :=
  {| col_dtype := col_dtype c; col_values := mask_select m (col_values c) |}.

(** [df[mask]] for a boolean series [mask]: the rows where it is [True],
    with their labels. *)
Definition DataFrame_mask (df : DataFrame) (m : list bool) : DataFrame :=
  {| df_index := mask_select m (df_index df);
     df_columns := map (fun c => (fst c, Column_mask m (snd c))) (df_columns df) |}.

(** Elementwise [&] of two boolean series. *)
Definition mask_and (m1 m2 : list bool) : list bool := zip_with andb m1 m2.

(** The mask of the rows without any missing entry. *)
Definition complete_rows (df : DataFrame) : list bool :=
  fold_right (fun c acc => mask_and (map notna (col_values (snd c))) acc)
             (repeat true (len df)) (df_columns df).

(** [df.dropna()] *)
Definition DataFrame_dropna (df : DataFrame) : DataFrame :=
  DataFrame_mask df (complete_rows df).

Definition fill_cell (v c : cell) : cell := if isna c then v else c.

(** [df.fillna(v)]; the column types are kept apart from [Datetime64],
    which cannot hold a number and falls back to [ObjectT]. *)
Definition Column_fillna (v : cell) (c : Column) : Column :=
  {| col_dtype := match col_dtype c with Datetime64 => ObjectT | t => t end;
     col_values := map (fill_cell v) (col_values c) |}.

Definition DataFrame_fillna (v : cell) (df : DataFrame) : DataFrame :=
  {| df_index := df_index df;
     df_columns := map (fun c => (fst c, Column_fillna v (snd c))) (df_columns df) |}.

(** [df.isnull().sum()], per column. *)
Definition count_na (c : Column) : nat :=
  length (List.filter isna (col_values c)).

Definition missing_values (df : DataFrame) : list (string * nat) :=
  map (fun c => (fst c, count_na (snd c))) (df_columns df).

Definition total_missing (df : DataFrame) : nat :=
  list_sum (map snd (missing_values df)).

Definition find_column (df : DataFrame) (name : string) : option Column :=
  snd <$> List.find (fun c => String.eqb name (fst c)) (df_columns df).

(** [name in df.columns] *)
Definition has_column (df : DataFrame) (name : string) : bool :=
  existsb (String.eqb name) (column_names df).

(** [df[name]], a series; column names are taken to be distinct, as
    [pd.read_csv] makes them (pandas returns a frame for a repeated
    name). *)
Definition getitem (df : DataFrame) (name : string) : result Series :=
  match find_column df name with
  | Some c => Ok {| s_index := df_index df; s_dtype := col_dtype c; s_values := col_values c |}
  | None => Raise KeyError
  end.

(** [df[names]] for a list of names. *)
Fixpoint getitems (df : DataFrame) (names : list string) : result (list (string * Column)) :=
  match names with
  | [] => Ok []
  | n :: ns =>
      match find_column df n with
      | None => Raise KeyError
      | Some c =>
          match getitems df ns with
          | Ok cs => Ok ((n, c) :: cs)
          | Raise e => Raise e
          end
      end
  end.

(** [df[name] = s]: an existing column is replaced in place, a new one is
    appended. *)
Definition setitem (df : DataFrame) (name : string) (s : Series) : DataFrame :=
  let c := {| col_dtype := s_dtype s; col_values := s_values s |} in
  {| df_index := df_index df;
     df_columns :=
       if has_column df name
       then map (fun nc => if String.eqb name (fst nc) then (fst nc, c) else nc) (df_columns df)
       else df_columns df ++ [(name, c)] |}.

(** [s == v] *)
Definition Series_eq (s : Series) (v : cell) : list bool :=
  map (fun c => cell_eqb c v) (s_values s).

(** [s.dropna()] *)
Definition Series_dropna (s : Series) : Series :=
  let m := map notna (s_values s) in
  {| s_index := mask_select m (s_index s);
     s_dtype := s_dtype s;
     s_values := mask_select m (s_values s) |}.

(** [df.head(n)]: the first [n] rows; for a negative [n], all rows but the
    last [-n]. *)
Definition head_count (n : Z) (rows : nat) : nat :=
  if (0 <=? n)%Z then Z.to_nat n else rows - Z.to_nat (- n).

Definition head (n : Z) (df : DataFrame) : DataFrame :=
  let k := head_count n (len df) in
  {| df_index := take k (df_index df);
     df_columns := map (fun c => (fst c, {| col_dtype := col_dtype (snd c);
                                           col_values := take k (col_values (snd c)) |}))
                       (df_columns df) |}.

Definition is_number (t : dtype) : bool :=
  match t with Int64 | Float64 => true | _ => false end.

Definition is_object (t : dtype) : bool :=
  match t with ObjectT => true | _ => false end.

(** [df.select_dtypes(include=...).columns.tolist()] *)
Definition select_dtypes (incl : dtype -> bool) (df : DataFrame) : list string :=
  map fst (List.filter (fun c => incl (col_dtype (snd c))) (df_columns df)).

(** ** Numeric kernels *)

Definition Qltb (x y : Q) : bool := negb (Qle_bool y x).

Fixpoint insert_sorted (x : Q) (l : list Q) : list Q :=
  match l with
  | [] => [x]
  | y :: l' => if Qle_bool x y then x :: l else y :: insert_sorted x l'
  end.

Definition sort_values (l : list Q) : list Q := fold_right insert_sorted [] l.

(** [Series.quantile(q)] with the default linear interpolation: the value
    at the fractional position [(n-1)*q] of the sorted data; NaN ([None])
    on empty data. *)
Definition quantile (xs : list Q) (q : Q) : option Q :=
  match sort_values xs with
  | [] => None
  | (x0 :: _) as s =>
      let n := length s in
      let pos := (inject_Z (Z.of_nat (n - 1)) * q)%Q in
      let lo := Z.to_nat (Qfloor pos) in
      let hi := Nat.min (lo + 1) (n - 1) in
      let frac := (pos - inject_Z (Z.of_nat lo))%Q in
      let a := nth lo s x0 in
      let b := nth hi s x0 in
      Some (a + (b - a) * frac)%Q
  end.

Definition Qsum (xs : list Q) : Q := fold_right Qplus 0%Q xs.

Definition Qmean (xs : list Q) : Q := (Qsum xs / inject_Z (Z.of_nat (length xs)))%Q.

(** Population variance, as [scipy.stats.zscore] uses it ([ddof=0]). *)
Definition Qvar (xs : list Q) : Q :=
  let mu := Qmean xs in
  (Qsum (map (fun x => (x - mu) * (x - mu)) xs) / inject_Z (Z.of_nat (length xs)))%Q.

(** [np.abs(stats.zscore(data)) > 3], elementwise.  With standard deviation
    [sd > 0], [|x - mu| / sd > 3] is [(x - mu)^2 > 9 * sd^2], which needs
    no square root; with [sd = 0] every score is NaN and compares false. *)
Definition zscore_gt3 (xs : list Q) : list bool :=
  let mu := Qmean xs in
  let v := Qvar xs in
  map (fun x => negb (Qeq_bool v 0) && Qltb (9 * v) ((x - mu) * (x - mu)))%Q xs.

(** Python's [/] on two [int]s. *)
Definition py_div (a b : nat) : result Q :=
  if Nat.eqb b 0 then Raise ZeroDivisionError
  else Ok (inject_Z (Z.of_nat a) / inject_Z (Z.of_nat b))%Q.

(** The number a cell is to the arithmetic of [detect_outliers].  A
    timestamp is its nanosecond count where pandas does timestamp
    arithmetic ([quantile], [-], [<]); [scipy.stats.zscore] rejects it. *)
Definition as_number (dates : bool) (c : cell) : option Q :=
  match c with
  | Num q => Some q
  | Date ns => if dates then Some (inject_Z ns) else None
  | _ => None
  end.

Fixpoint numbers (dates : bool) (cs : list cell) : result (list Q) :=
  match cs with
  | [] => Ok []
  | c :: cs' =>
      match as_number dates c with
      | None => Raise TypeError
      | Some q =>
          match numbers dates cs' with
          | Ok qs => Ok (q :: qs)
          | Raise e => Raise e
          end
      end
  end.

(** ** Frequency counts *)

(** One more occurrence of [x] in a table of counts kept in order of first
    appearance. *)
Fixpoint bump (x : cell) (acc : list (cell * nat)) : list (cell * nat) :=
  match acc with
  | [] => [(x, 1)]
  | (k, n) :: acc' => if cell_eqb k x then (k, S n) :: acc' else (k, n) :: bump x acc'
  end.

Definition tally (cs : list cell) : list (cell * nat) :=
  fold_left (fun acc x => bump x acc) cs [].

Fixpoint insert_by_count (x : cell * nat) (l : list (cell * nat)) : list (cell * nat) :=
  match l with
  | [] => [x]
  | y :: l' => if Nat.leb (snd y) (snd x) then x :: l else y :: insert_by_count x l'
  end.

(** [s.value_counts()]: missing entries are dropped, the counts are sorted
    in descending order; equal counts stay in order of first appearance. *)
Definition value_counts (s : Series) : list (cell * nat) :=
  fold_right insert_by_count [] (tally (s_values (Series_dropna s))).

(** [s.nunique()] *)
Definition nunique (s : Series) : nat :=
  length (tally (s_values (Series_dropna s))).

(** ** The object store and the method monad *)

Definition loc := nat.

(** What the program prints or renders, one constructor per [print] or
    plotting call of the source. *)
Inductive message :=
| MsgLoaded (filename : string)
| MsgShape (rows cols : nat)
| MsgFileNotFound (filename filepath : string)
| MsgLoadError (err : string)
| MsgLoadDataFirst
| MsgNoData
| MsgDropped (n : Z)
| MsgFilled
| MsgInvalidStrategy
| MsgColumnNotFound (column : string)
| MsgFiltered (n : nat) (column : string) (value : cell)
| MsgGeneratingSummary
| MsgAnalyzingDistributions
| MsgPlotsSaved
| MsgCorrelation (method : string)
| MsgNotNumerical (column : string)
| MsgOutliersDetected (column : string)
| MsgOutlierMethod (method : string)
| MsgOutlierCount (n : nat)
| MsgOutlierPercentage (p : Q)
| MsgAnalyzingCategorical
| MsgColumn (column : string)
| MsgUniqueValues (n : nat)
| MsgMostCommon (v : cell) (n : nat)
| MsgTimeSeries
| PltSavefig (file : string)
| PltShow.

Record World := { heap : gmap loc DataFrame; stdout : list message }.

(** A method body: it reads and writes the attributes of [self] and the
    world, and returns or raises.  An exception keeps the effects made
    before it. *)
Definition M (Self A : Type) : Type := Self -> World -> result A * Self * World.

#[global] Instance M_ret {Self} : MRet (M Self) :=
  fun A a self w => (Ok a, self, w).

#[global] Instance M_bind {Self} : MBind (M Self) :=
  fun A B f m self w =>
    match m self w with
    | (Ok a, self', w') => f a self' w'
    | (Raise e, self', w') => (Raise e, self', w')
    end.

Definition raise {Self A} (e : exn) : M Self A :=
  fun self w => (Raise e, self, w).

Definition lift {Self A} (r : result A) : M Self A :=
  fun self w => (r, self, w).

Definition print {Self} (m : message) : M Self unit :=
  fun self w => (Ok tt, self, {| heap := heap w; stdout := stdout w ++ [m] |}).

Definition get_self {Self} : M Self Self :=
  fun self w => (Ok self, self, w).

Definition set_self {Self} (self' : Self) : M Self unit :=
  fun _ w => (Ok tt, self', w).

(** A new object: a fresh reference holding [df]. *)
Definition alloc {Self} (df : DataFrame) : M Self loc :=
  fun self w =>
    let l := fresh (dom (heap w)) in
    (Ok l, self, {| heap := <[l := df]> (heap w); stdout := stdout w |}).

(** Reading through a reference.  The references held by the two classes
    are always allocated; a dangling one is reported as [KeyError]. *)
Definition deref {Self} (l : loc) : M Self DataFrame :=
  fun self w =>
    match heap w !! l with
    | Some df => (Ok df, self, w)
    | None => (Raise KeyError, self, w)
    end.

(** In-place update of the object behind a reference. *)
Definition update {Self} (l : loc) (df : DataFrame) : M Self unit :=
  fun self w => (Ok tt, self, {| heap := <[l := df]> (heap w); stdout := stdout w |}).

(** ** [data_loader.py]: class [NetflixDataLoader] *)

Module NetflixDataLoader.

(** The attributes of a loader object; [data] is [None] until a file has
    been loaded, then a reference to the loaded frame. *)
Record Loader := { data_path : string; data : option loc }.

(** What [pd.read_csv] does with a path. *)
Inductive csv_outcome :=
| CsvFrame (df : DataFrame)
| CsvFileNotFound
| CsvError (err : string).

(** The dictionary returned by [get_basic_info], one field per key
    (['rows'], ['columns'], ['column_names'], ['missing_values'],
    ['dtypes']). *)
Record BasicInfo := {
  info_rows : nat;
  info_columns : nat;
  info_column_names : list string;
  info_missing_values : list (string * nat);
  info_dtypes : list (string * dtype)
}.

Definition starts_with_slash (s : string) : bool :=
  match s with
  | String c _ => Ascii.eqb c "/"%char
  | EmptyString => false
  end.

Fixpoint ends_with_slash (s : string) : bool :=
  match s with
  | EmptyString => false
  | String c EmptyString => Ascii.eqb c "/"%char
  | String _ s' => ends_with_slash s'
  end.

(** [os.path.join(a, b)] on POSIX. *)
Definition path_join (a b : string) : string :=
  if starts_with_slash b then b
  else if String.eqb a "" || ends_with_slash a then a +:+ b
  else a +:+ "/" +:+ b.

Definition __init__ (path : string) : Loader :=
  {| data_path := path; data := None |}.

Section Methods.

(** The file system as [pd.read_csv] sees it. *)
Variable read_csv : string -> csv_outcome.

Definition load_csv (filename : string) : M Loader (option loc) :=
  self ← get_self;
  let filepath := path_join (data_path self) filename in
  match read_csv filepath with
  | CsvFrame df =>
      l ← alloc df;
      set_self {| data_path := data_path self; data := Some l |};;
      print (MsgLoaded filename);;
      print (MsgShape (len df) (length (df_columns df)));;
      mret (Some l)
  | CsvFileNotFound =>
      print (MsgFileNotFound filename filepath);;
      mret None
  | CsvError err =>
      print (MsgLoadError err);;
      mret None
  end.

(** [None] stands for the empty dictionary. *)
Definition get_basic_info : M Loader (option BasicInfo) :=
  self ← get_self;
  match data self with
  | None =>
      print MsgLoadDataFirst;;
      mret None
  | Some l =>
      df ← deref l;
      mret (Some {| info_rows := len df;
                    info_columns := length (df_columns df);
                    info_column_names := column_names df;
                    info_missing_values := missing_values df;
                    info_dtypes := map (fun c => (fst c, col_dtype (snd c))) (df_columns df) |})
  end.

Definition show_sample (n : Z) : M Loader (option loc) :=
  self ← get_self;
  match data self with
  | None =>
      print MsgNoData;;
      mret None
  | Some l =>
      df ← deref l;
      r ← alloc (head n df);
      mret (Some r)
  end.

Definition handle_missing_values (strategy : string) : M Loader (option loc) :=
  self ← get_self;
  match data self with
  | None =>
      print MsgNoData;;
      mret None
  | Some l =>
      if String.eqb strategy "drop" then
        df ← deref l;
        let cleaned := DataFrame_dropna df in
        cleaned_data ← alloc cleaned;
        print (MsgDropped (Z.of_nat (len df) - Z.of_nat (len cleaned)));;
        mret (Some cleaned_data)
      else if String.eqb strategy "fill" then
        df ← deref l;
        cleaned_data ← alloc (DataFrame_fillna (Num 0) df);
        print MsgFilled;;
        mret (Some cleaned_data)
      else
        print MsgInvalidStrategy;;
        mret (Some l)
  end.

Definition filter_by_column (column : string) (value : cell) : M Loader (option loc) :=
  self ← get_self;
  match data self with
  | None =>
      print MsgNoData;;
      mret None
  | Some l =>
      df ← deref l;
      if negb (has_column df column) then
        print (MsgColumnNotFound column);;
        mret None
      else
        s ← lift (getitem df column);
        let filtered := DataFrame_mask df (Series_eq s value) in
        filtered_data ← alloc filtered;
        print (MsgFiltered (len filtered) column value);;
        mret (Some filtered_data)
  end.

(** The public operations of a loader, for sequences of calls. *)
Inductive call :=
| LoadCsv (filename : string)
| GetBasicInfo
| ShowSample (n : Z)
| HandleMissingValues (strategy : string)
| FilterByColumn (column : string) (value : cell).

Definition is_load (c : call) : bool :=
  match c with LoadCsv _ => true | _ => false end.

(** One call, its return value dropped. *)
Definition exec (c : call) : M Loader unit :=
  match c with
  | LoadCsv f => load_csv f;; mret tt
  | GetBasicInfo => get_basic_info;; mret tt
  | ShowSample n => show_sample n;; mret tt
  | HandleMissingValues s => handle_missing_values s;; mret tt
  | FilterByColumn c v => filter_by_column c v;; mret tt
  end.

(** A sequence of calls; a caller may catch what a call raises and go
    on, so the run continues after an exception. *)
Fixpoint run (cs : list call) (self : Loader) (w : World) : Loader * World :=
  match cs with
  | [] => (self, w)
  | c :: cs' =>
      match exec c self w with
      | (_, self', w') => run cs' self' w'
      end
  end.

End Methods.

End NetflixDataLoader.

(** ** [exploratory_analysis.py]: class [NetflixExploratoryAnalysis] *)

Module NetflixExploratoryAnalysis.

(** The attributes of an analyzer object.  [data] refers to the analyzer's
    own frame; the two column lists are computed once, by [__init__]. *)
Record Analyzer := {
  data : loc;
  numerical_cols : list string;
  categorical_cols : list string
}.

(** A value of the statistics dictionary of [detect_outliers]. *)
Inductive stat :=
| SStr (s : string)
| SInt (n : Z)
| SFloat (q : Q).

(** A float has one representation: rationals stored in a result are kept
    in lowest terms. *)
Definition float (q : Q) : stat := SFloat (Qred q).

(** The per-column dictionary built by [categorical_analysis]. *)
Record Profile := {
  unique_values : nat;
  most_common : cell;
  most_common_count : nat;
  distribution : list (cell * nat)
}.

(** One row of the frame returned by [time_series_analysis]; [date] counts
    days since the epoch, a NaN mean is [None]. *)
Record TsRow := { date : Z; mean : option Q; sum : Q; count : nat }.

(** [NetflixExploratoryAnalysis(data)]: the analyzer keeps a copy of the
    frame behind [data_arg], a new object with the same contents, and
    classifies the columns of the frame it was given. *)
Definition __init__ (data_arg : loc) : M unit Analyzer :=
  df ← deref data_arg;
  copy ← alloc df;
  mret {| data := copy;
          numerical_cols := select_dtypes is_number df;
          categorical_cols := select_dtypes is_object df |}.

Definition ns_per_day : Z := 86400000000000.

(** [Timestamp.date()], as days since the epoch. *)
Definition date_of (ns : Z) : Z := (ns / ns_per_day)%Z.

(** [s.dt.date]: the group key of each row, [None] for NaT. *)
Definition dt_date (s : Series) : list (option Z) :=
  map (fun c => match c with Date ns => Some (date_of ns) | _ => None end) (s_values s).

Fixpoint insert_date (d : Z) (l : list Z) : list Z :=
  match l with
  | [] => [d]
  | e :: l' =>
      if (d =? e)%Z then l
      else if (d <? e)%Z then d :: l
      else e :: insert_date d l'
  end.

(** The group keys of a [groupby]: the distinct dates in ascending order;
    rows without a date belong to no group. *)
Definition group_keys (ks : list (option Z)) : list Z :=
  fold_right (fun k acc => match k with Some d => insert_date d acc | None => acc end) [] ks.

Definition in_group (d : Z) (k : option Z) : bool :=
  match k with Some e => (d =? e)%Z | None => false end.

(** The number a cell is to [mean] and [sum]. *)
Definition agg_number (c : cell) : option Q :=
  match c with
  | Num q => Some q
  | Boolean b => Some (bool_to_Q b)
  | _ => None
  end.

Fixpoint agg_numbers (cs : list cell) : result (list Q) :=
  match cs with
  | [] => Ok []
  | c :: cs' =>
      match agg_number c with
      | None => Raise TypeError
      | Some q =>
          match agg_numbers cs' with
          | Ok qs => Ok (q :: qs)
          | Raise e => Raise e
          end
      end
  end.

(** [.agg(['mean', 'sum', 'count'])] on one group: missing values are
    skipped; an empty group has mean NaN, sum 0 and count 0. *)
Definition agg_group (d : Z) (cs : list cell) : result TsRow :=
  match agg_numbers (List.filter notna cs) with
  | Ok qs =>
      Ok {| date := d;
            mean := if Nat.eqb (length qs) 0 then None else Some (Qred (Qmean qs));
            sum := Qred (Qsum qs);
            count := length qs |}
  | Raise e => Raise e
  end.

Fixpoint agg_groups (ds : list Z) (ks : list (option Z)) (vs : list cell) : result (list TsRow) :=
  match ds with
  | [] => Ok []
  | d :: ds' =>
      match agg_group d (mask_select (map (in_group d) ks) vs) with
      | Raise e => Raise e
      | Ok r =>
          match agg_groups ds' ks vs with
          | Ok rs => Ok (r :: rs)
          | Raise e => Raise e
          end
      end
  end.

(** [df.groupby(keys)[value_column].agg(['mean', 'sum', 'count'])] *)
Definition groupby_agg (ks : list (option Z)) (v : Series) : result (list TsRow) :=
  agg_groups (group_keys ks) ks (s_values v).

(** [data[mask]] on a series. *)
Definition Series_mask (s : Series) (m : list bool) : Series :=
  {| s_index := mask_select m (s_index s);
     s_dtype := s_dtype s;
     s_values := mask_select m (s_values s) |}.

Section Methods.

(** The library routines the class delegates to and that are not modelled
    here: the parser behind [pd.to_datetime] for one non-missing entry,
    the summary statistics ([describe], [var], [skew], [kurtosis],
    [round]) and the correlation matrix of a list of columns. *)
Variable parse_datetime : cell -> result Z.
Variable Summary : Type.
Variable describe_stats : list (string * Column) -> result Summary.
Variable Corr : Type.
Variable corr : list (string * Column) -> string -> result Corr.

Definition cell_to_datetime (c : cell) : result cell :=
  match c with
  | NA => Ok NA
  | Date ns => Ok (Date ns)
  | _ =>
      match parse_datetime c with
      | Ok ns => Ok (Date ns)
      | Raise e => Raise e
      end
  end.

Fixpoint cells_to_datetime (cs : list cell) : result (list cell) :=
  match cs with
  | [] => Ok []
  | c :: cs' =>
      match cell_to_datetime c with
      | Raise e => Raise e
      | Ok d =>
          match cells_to_datetime cs' with
          | Ok ds => Ok (d :: ds)
          | Raise e => Raise e
          end
      end
  end.

(** [pd.to_datetime(s)] *)
Definition to_datetime (s : Series) : result Series :=
  match cells_to_datetime (s_values s) with
  | Ok ds => Ok {| s_index := s_index s; s_dtype := Datetime64; s_values := ds |}
  | Raise e => Raise e
  end.

Definition generate_statistical_summary : M Analyzer Summary :=
  print MsgGeneratingSummary;;
  self ← get_self;
  df ← deref (data self);
  cols ← lift (getitems df (numerical_cols self));
  lift (describe_stats cols).

(** [plt.subplots(0, 2)] raises [ValueError]; the rendering itself is an
    opaque sink. *)
Definition analyze_distributions (save_plots : bool) : M Analyzer unit :=
  print MsgAnalyzingDistributions;;
  self ← get_self;
  let n_cols := length (numerical_cols self) in
  (if Nat.eqb n_cols 0 then raise ValueError else mret tt);;
  df ← deref (data self);
  lift (getitems df (numerical_cols self));;
  (if save_plots
   then print (PltSavefig "distribution_analysis.png");; print MsgPlotsSaved
   else mret tt);;
  print PltShow.

Definition correlation_analysis (method : string) : M Analyzer Corr :=
  print (MsgCorrelation method);;
  self ← get_self;
  df ← deref (data self);
  cols ← lift (getitems df (numerical_cols self));
  corr_matrix ← lift (corr cols method);
  print PltShow;;
  mret corr_matrix.

(** The [if]/[elif] of [detect_outliers]: [None] when neither branch is
    taken, so that [outliers] and [stats_dict] stay unbound. *)
Definition outlier_branches (data : Series) (method : string)
  : M Analyzer (option (Series * gmap string stat)) :=
  if String.eqb method "iqr" then
    xs ← lift (numbers true (s_values data));
    match quantile xs (1 # 4), quantile xs (3 # 4) with
    | Some Q1, Some Q3 =>
        let IQR := (Q3 - Q1)%Q in
        let lower_bound := (Q1 - (3 # 2) * IQR)%Q in
        let upper_bound := (Q3 + (3 # 2) * IQR)%Q in
        let outliers :=
          Series_mask data (map (fun x => Qltb x lower_bound || Qltb upper_bound x) xs) in
        pct ← lift (py_div (length (s_index outliers)) (length (s_index data)));
        mret (Some (outliers,
                    <["method" := SStr "IQR"]>
                    (<["lower_bound" := float lower_bound]>
                    (<["upper_bound" := float upper_bound]>
                    (<["n_outliers" := SInt (Z.of_nat (length (s_index outliers)))]>
                    (<["outlier_percentage" := float (pct * 100)]> ∅))))))
    | _, _ =>
        (* the quantiles are NaN on empty data only: nothing is selected and
           [len(outliers) / len(data)] divides by zero *)
        raise ZeroDivisionError
    end
  else if String.eqb method "zscore" then
    xs ← lift (numbers false (s_values data));
    let outliers := Series_mask data (zscore_gt3 xs) in
    pct ← lift (py_div (length (s_index outliers)) (length (s_index data)));
    mret (Some (outliers,
                <["method" := SStr "Z-score"]>
                (<["threshold" := SInt 3]>
                (<["n_outliers" := SInt (Z.of_nat (length (s_index outliers)))]>
                (<["outlier_percentage" := float (pct * 100)]> ∅)))))
  else
    mret None.

Definition detect_outliers (column method : string)
  : M Analyzer (list label * gmap string stat) :=
  self ← get_self;
  if negb (existsb (String.eqb column) (numerical_cols self)) then
    print (MsgNotNumerical column);;
    mret ([], ∅)
  else
    df ← deref (data self);
    s ← lift (getitem df column);
    bound ← outlier_branches (Series_dropna s) method;
    print (MsgOutliersDetected column);;
    match bound with
    | None => raise UnboundLocalError
    | Some (outliers, stats_dict) =>
        match stats_dict !! "method", stats_dict !! "n_outliers",
              stats_dict !! "outlier_percentage" with
        | Some (SStr m), Some (SInt n), Some (SFloat p) =>
            print (MsgOutlierMethod m);;
            print (MsgOutlierCount (Z.to_nat n));;
            print (MsgOutlierPercentage p);;
            mret (s_index outliers, stats_dict)
        | _, _, _ => raise KeyError
        end
    end.

Fixpoint categorical_loop (cols : list string) (results : gmap string Profile)
  : M Analyzer (gmap string Profile) :=
  match cols with
  | [] => mret results
  | col :: cols' =>
      self ← get_self;
      df ← deref (data self);
      s ← lift (getitem df col);
      let value_counts := value_counts s in
      match value_counts with
      | [] => raise IndexError
      | (v, n) :: _ =>
          print (MsgColumn col);;
          print (MsgUniqueValues (nunique s));;
          print (MsgMostCommon v n);;
          categorical_loop cols'
            (<[col := {| unique_values := nunique s;
                         most_common := v;
                         most_common_count := n;
                         distribution := value_counts |}]> results)
      end
  end.

Definition categorical_analysis : M Analyzer (gmap string Profile) :=
  print MsgAnalyzingCategorical;;
  self ← get_self;
  categorical_loop (categorical_cols self) ∅.

Definition time_series_analysis (date_column value_column : string)
  : M Analyzer (list TsRow) :=
  print MsgTimeSeries;;
  self ← get_self;
  df ← deref (data self);
  s ← lift (getitem df date_column);
  converted ← lift (to_datetime s);
  update (data self) (setitem df date_column converted);;
  df' ← deref (data self);
  dates ← lift (getitem df' date_column);
  values ← lift (getitem df' value_column);
  ts_data ← lift (groupby_agg (dt_date dates) values);
  print PltShow;;
  mret ts_data.

(** The public operations of an analyzer, for sequences of calls. *)
Inductive call :=
| GenerateStatisticalSummary
| AnalyzeDistributions (save_plots : bool)
| CorrelationAnalysis (method : string)
| DetectOutliers (column method : string)
| CategoricalAnalysis
| TimeSeriesAnalysis (date_column value_column : string).

Definition is_time_series (c : call) : bool :=
  match c with TimeSeriesAnalysis _ _ => true | _ => false end.

(** One call, its return value dropped. *)
Definition exec (c : call) : M Analyzer unit :=
  match c with
  | GenerateStatisticalSummary => generate_statistical_summary;; mret tt
  | AnalyzeDistributions b => analyze_distributions b
  | CorrelationAnalysis m => correlation_analysis m;; mret tt
  | DetectOutliers c m => detect_outliers c m;; mret tt
  | CategoricalAnalysis => categorical_analysis;; mret tt
  | TimeSeriesAnalysis d v => time_series_analysis d v;; mret tt
  end.

(** A sequence of calls; the run goes on after a call that raised. *)
Fixpoint run (cs : list call) (self : Analyzer) (w : World) : Analyzer * World :=
  match cs with
  | [] => (self, w)
  | c :: cs' =>
      match exec c self w with
      | (_, self', w') => run cs' self' w'
      end
  end.

End Methods.

(** What [categorical_analysis] records for one column; [None] when the
    column has no value to count. *)
Definition profile_of (s : Series) : option Profile :=
  match value_counts s with
  | [] => None
  | (v, n) :: _ =>
      Some {| unique_values := nunique s;
              most_common := v;
              most_common_count := n;
              distribution := value_counts s |}
  end.


End NetflixExploratoryAnalysis.


(** * Specification vocabulary *)

(** ** The row view of a frame

    The specification of cleaning and filtering speaks of rows; the code works
    on columns and boolean masks.  [rows] transposes a frame into its
    labelled rows, each an association list from column name to entry. *)

Fixpoint rows_of (idx : list label) (cols : list (string * list cell))
  : list (label * list (string * cell)) :=
  match idx with
  | [] => []
  | lbl :: idx' =>
      (lbl, map (fun c => (fst c, hd NA (snd c))) cols)
        :: rows_of idx' (map (fun c => (fst c, tl (snd c))) cols)
  end.

Definition rows (df : DataFrame) : list (label * list (string * cell)) :=
  rows_of (df_index df) (map (fun c => (fst c, col_values (snd c))) (df_columns df)).

(** The entry of a row in a named column. *)
Definition row_get (r : label * list (string * cell)) (column : string) : option cell :=
  snd <$> List.find (fun nc => String.eqb column (fst nc)) (snd r).

Definition row_matches (column : string) (v : cell) (r : label * list (string * cell)) : bool :=
  match row_get r column with
  | Some c => cell_eqb c v
  | None => false
  end.

Definition row_has_missing (r : label * list (string * cell)) : bool :=
  existsb (fun nc => isna (snd nc)) (snd r).

(** The number of rows with at least one missing entry. *)
Definition rows_with_missing (df : DataFrame) : nat :=
  length (List.filter row_has_missing (rows df)).

(** A row after filling with [v]: an entry that is missing becomes [v],
    an entry that is there stays what it is. *)
Definition fill_row (v : cell) (r : label * list (string * cell))
  : label * list (string * cell) :=
  (fst r,
   map (fun nc =>
          match snd nc with
          | NA => (fst nc, v)
          | Num _ | Str _ | Boolean _ | Date _ => nc
          end) (snd r)).

(** The column types of a frame, by column. *)
Definition column_dtypes (df : DataFrame) : list (string * dtype) :=
  map (fun c => (fst c, col_dtype (snd c))) (df_columns df).

(** Every categorical column of a frame has at least one value. *)
Definition categorical_have_values (df : DataFrame) : bool :=
  forallb (fun c => negb (is_object (col_dtype (snd c))) || existsb notna (col_values (snd c)))
          (df_columns df).

(** Value counts in descending order of count. *)
Definition descending : list (cell * nat) -> Prop :=
  StronglySorted (fun a b => snd b <= snd a).

(** The aggregate [time_series_analysis] computes once the date column
    [dates] has been converted and stored in [df]: the value column
    grouped by calendar day. *)
Definition daily_aggregate (df : DataFrame) (dates : Series) (value_column : string)
  : result (list NetflixExploratoryAnalysis.TsRow) :=
  match getitem df value_column with
  | Ok values =>
      NetflixExploratoryAnalysis.groupby_agg (NetflixExploratoryAnalysis.dt_date dates) values
  | Raise e => Raise e
  end.

(** The rows that count for a daily aggregate: those with a date and a
    value. *)
Definition dated_value (kc : option Z * cell) : bool :=
  match fst kc with Some _ => notna (snd kc) | None => false end.



(** Two frames of the same shape: the same row labels and the same column
    names, in order. *)
Definition same_shape (df df' : DataFrame) : Prop :=
  df_index df' = df_index df /\ column_names df' = column_names df.


(** ** Sorted data *)




(** ** The heap *)

(** Every object of [w] is still there, unchanged, in [w']. *)
Definition heap_preserved (w w' : World) : Prop :=
  forall l df, heap w !! l = Some df -> heap w' !! l = Some df.

(** The heap is unchanged. *)
Definition same_heap (h h' : gmap loc DataFrame) : Prop := h' = h.

(** No object other than the one behind [l] is changed. *)
Definition only_at (l : loc) (h h' : gmap loc DataFrame) : Prop :=
  forall l', l' <> l -> h' !! l' = h !! l'.

(** ** Frame conditions

    Run on [self], the body [m] leaves the attributes of [self] alone and
    changes the heap within [R], whether it returns or raises. *)
Definition frame_at {Self A : Type} (R : gmap loc DataFrame -> gmap loc DataFrame -> Prop)
    (self : Self) (m : M Self A) : Prop :=
  forall w, snd (fst (m self w)) = self /\ R (heap w) (heap (snd (m self w))).

(** ** Example tables *)

(** A world whose only object is [df], at reference 0, as a caller holds
    it. *)
Definition world_of (df : DataFrame) : World :=
  {| heap := {[ 0 := df ]}; stdout := [] |}.

(** Seven viewing records; the non-missing watch durations are 1, 2, 3, 4,
    5 and 1000. *)
Definition outlier_table : DataFrame :=
  {| df_index := [0; 1; 2; 3; 4; 5; 6];
     df_columns :=
       [("watch_duration",
         {| col_dtype := Float64;
            col_values := [Num 3; Num 1; NA; Num 1000; Num 2; Num 5; Num 4] |});
        ("content_genre",
         {| col_dtype := ObjectT;
            col_values := [Str "Drama"; Str "Drama"; Str "Comedy"; NA;
                           Str "Drama"; Str "Action"; Str "Comedy"] |});
        ("is_premium",
         {| col_dtype := BoolT;
            col_values := [Boolean true; Boolean false; Boolean false; Boolean true;
                           Boolean true; Boolean false; Boolean true] |})] |}.

(** Three records with genres [Drama, Drama, Comedy]. *)
Definition genre_table : DataFrame :=
  {| df_index := [0; 1; 2];
     df_columns :=
       [("user_rating",
         {| col_dtype := Float64; col_values := [Num 4; NA; Num 5] |});
        ("content_genre",
         {| col_dtype := ObjectT;
            col_values := [Str "Drama"; Str "Drama"; Str "Comedy"] |})] |}.

(** Four records, three of them with a missing entry. *)
Definition ratings_table : DataFrame :=
  {| df_index := [0; 1; 2; 3];
     df_columns :=
       [("user_rating",
         {| col_dtype := Float64; col_values := [Num 4; NA; Num 5; NA] |});
        ("content_genre",
         {| col_dtype := ObjectT;
            col_values := [Str "Drama"; NA; NA; Str "Comedy"] |})] |}.

(** Two records without any value. *)
Definition blank_table : DataFrame :=
  {| df_index := [0; 1];
     df_columns :=
       [("user_rating", {| col_dtype := Float64; col_values := [NA; NA] |});
        ("content_genre", {| col_dtype := ObjectT; col_values := [NA; NA] |})] |}.


(** Three sessions, the first two on the same day. *)
Definition sessions_table : DataFrame :=
  {| df_index := [0; 1; 2];
     df_columns :=
       [("started",
         {| col_dtype := Int64;
            col_values := [Num 3600000000000; Num 7200000000000; Num 90000000000000] |});
        ("minutes",
         {| col_dtype := Float64; col_values := [Num 30; Num 45; Num 15] |})] |}.

(** The analyzer built on the three sessions, and the world it lives in. *)
Definition sessions_analyzer : NetflixExploratoryAnalysis.Analyzer :=
  {| NetflixExploratoryAnalysis.data := 1;
     NetflixExploratoryAnalysis.numerical_cols := ["started"; "minutes"];
     NetflixExploratoryAnalysis.categorical_cols := [] |}.

Definition sessions_world : World :=
  {| heap := <[1 := sessions_table]> {[ 0 := sessions_table ]}; stdout := [] |}.

Definition sessions_converted : Series :=
  {| s_index := [0; 1; 2];
     s_dtype := Datetime64;
     s_values := [Date 3600000000000; Date 7200000000000; Date 90000000000000] |}.

(** The analyzer built on the two blank records, and its world. *)
Definition blank_analyzer : NetflixExploratoryAnalysis.Analyzer :=
  {| NetflixExploratoryAnalysis.data := 1;
     NetflixExploratoryAnalysis.numerical_cols := ["user_rating"];
     NetflixExploratoryAnalysis.categorical_cols := ["content_genre"] |}.

Definition blank_world : World :=
  {| heap := <[1 := blank_table]> {[ 0 := blank_table ]}; stdout := [] |}.

(** The analyzer built on the three genre records, its world, and what
    [categorical_analysis] returns and prints there. *)
Definition genre_analyzer : NetflixExploratoryAnalysis.Analyzer :=
  {| NetflixExploratoryAnalysis.data := 1;
     NetflixExploratoryAnalysis.numerical_cols := ["user_rating"];
     NetflixExploratoryAnalysis.categorical_cols := ["content_genre"] |}.

Definition genre_world : World :=
  {| heap := <[1 := genre_table]> {[ 0 := genre_table ]}; stdout := [] |}.

Definition genre_profile : NetflixExploratoryAnalysis.Profile :=
  {| NetflixExploratoryAnalysis.unique_values := 2;
     NetflixExploratoryAnalysis.most_common := Str "Drama";
     NetflixExploratoryAnalysis.most_common_count := 2;
     NetflixExploratoryAnalysis.distribution := [(Str "Drama", 2); (Str "Comedy", 1)] |}.

Definition genre_results : gmap string NetflixExploratoryAnalysis.Profile :=
  <["content_genre" := genre_profile]> ∅.

Definition genre_world_after : World :=
  {| heap := heap genre_world;
     stdout := [MsgAnalyzingCategorical; MsgColumn "content_genre";
                MsgUniqueValues 2; MsgMostCommon (Str "Drama") 2] |}.

(** A file system with one file. *)
Definition one_file (path : string) : NetflixDataLoader.csv_outcome :=
  if String.eqb path "./data/ratings.csv"
  then NetflixDataLoader.CsvFrame ratings_table
  else NetflixDataLoader.CsvFileNotFound.



(** A loader that has loaded the table at reference 0. *)
Definition loaded : NetflixDataLoader.Loader :=
  {| NetflixDataLoader.data_path := "./data"; NetflixDataLoader.data := Some 0 |}.

(** A file system without files. *)
Definition no_files (path : string) : NetflixDataLoader.csv_outcome :=
  NetflixDataLoader.CsvFileNotFound.

(** Stand-ins for the library routines: a parser that reads a number as
    nanoseconds since the epoch, and summaries that carry no data. *)
Definition parse_ns (c : cell) : result Z :=
  match c with
  | Num q => Ok (Qfloor q)
  | _ => Raise ValueError
  end.

Definition no_summary (cols : list (string * Column)) : result unit := Ok tt.

Definition no_corr (cols : list (string * Column)) (method : string) : result unit := Ok tt.

(** * Properties *)

(** ** Masks and rows *)

Section MaskFacts.

Context {A : Type}.

Lemma mask_select_nil_r (m : list bool) : mask_select m (@nil A) = [].
Proof. destruct m as [|[] m]; reflexivity. Qed.

Lemma mask_select_map (p : A -> bool) (xs : list A) :
  mask_select (map p xs) xs = List.filter p xs.
Proof.
  induction xs as [|x xs IH]; simpl; [reflexivity|].
  rewrite IH. reflexivity.
Qed.

Lemma filter_length_complement (p : A -> bool) (xs : list A) :
  length (List.filter (fun x => negb (p x)) xs) + length (List.filter p xs) = length xs.
Proof.
  induction xs as [|x xs IH]; simpl; [reflexivity|].
  destruct (p x); simpl; lia.
Qed.

End MaskFacts.

Lemma rows_of_length idx cols : length (rows_of idx cols) = length idx.
Proof.
  revert cols. induction idx as [|lbl idx IH]; intros cols; simpl; [reflexivity|].
  rewrite IH. reflexivity.
Qed.

Lemma rows_length df : length (rows df) = len df.
Proof. apply rows_of_length. Qed.

(** Selecting rows by a mask commutes with transposition. *)
Lemma rows_of_mask (m : list bool) idx cols :
  rows_of (mask_select m idx) (map (fun c => (fst c, mask_select m (snd c))) cols)
  = mask_select m (rows_of idx cols).
Proof.
  revert idx cols. induction m as [|b m IH]; intros idx cols.
  - destruct idx; reflexivity.
  - destruct idx as [|lbl idx]; [reflexivity|].
    assert (Htl : map (fun c : string * list cell => (fst c, tl (snd c)))
                    (map (fun c => (fst c, mask_select (true :: m) (snd c))) cols)
                  = map (fun c => (fst c, mask_select m (snd c)))
                      (map (fun c => (fst c, tl (snd c))) cols)).
    { rewrite !map_map. apply map_ext. intros [n [|x xs]]; simpl; [|reflexivity].
      rewrite mask_select_nil_r. reflexivity. }
    assert (Hskip : map (fun c : string * list cell => (fst c, mask_select (false :: m) (snd c))) cols
                    = map (fun c => (fst c, mask_select m (snd c)))
                        (map (fun c => (fst c, tl (snd c))) cols)).
    { rewrite map_map. apply map_ext. intros [n [|x xs]]; simpl; [|reflexivity].
      rewrite mask_select_nil_r. reflexivity. }
    destruct b; simpl in *.
    + rewrite Htl, IH. f_equal. f_equal.
      rewrite map_map. apply map_ext. intros [n [|x xs]]; reflexivity.
    + rewrite Hskip, IH. reflexivity.
Qed.

Lemma rows_mask df m : rows (DataFrame_mask df m) = mask_select m (rows df).
Proof.
  unfold rows, DataFrame_mask; simpl.
  rewrite <- rows_of_mask. f_equal. rewrite !map_map. reflexivity.
Qed.

Lemma find_map_snd {B C : Type} (f : B -> C) (name : string) (cols : list (string * B)) :
  List.find (fun nc => String.eqb name (fst nc)) (map (fun c => (fst c, f (snd c))) cols)
  = (fun c => (fst c, f (snd c))) <$> List.find (fun nc => String.eqb name (fst nc)) cols.
Proof.
  induction cols as [|[n b] cols IH]; simpl; [reflexivity|].
  destruct (String.eqb name n); [reflexivity|exact IH].
Qed.

(** The mask [df[column] == v] marks the rows whose entry matches. *)
Lemma eq_mask_rows_of (name : string) (v : cell) idx cols vals :
  snd <$> List.find (fun nc => String.eqb name (fst nc)) cols = Some vals ->
  length vals = length idx ->
  map (fun c => cell_eqb c v) vals = map (row_matches name v) (rows_of idx cols).
Proof.
  revert cols vals. induction idx as [|lbl idx IH]; intros cols vals Hfind Hlen.
  - destruct vals; [reflexivity|discriminate].
  - destruct vals as [|x xs]; [discriminate|]. simpl.
    f_equal.
    + unfold row_matches, row_get. simpl. rewrite find_map_snd.
      destruct (List.find _ cols) as [[n b]|]; simpl in *; [|discriminate].
      inversion Hfind; subst. reflexivity.
    + apply IH; [|simpl in Hlen; lia].
      rewrite find_map_snd.
      destruct (List.find _ cols) as [[n b]|]; simpl in *; [|discriminate].
      inversion Hfind; subst. reflexivity.
Qed.

Lemma find_column_values df name c :
  find_column df name = Some c ->
  snd <$> List.find (fun nc => String.eqb name (fst nc))
            (map (fun c => (fst c, col_values (snd c))) (df_columns df))
  = Some (col_values c).
Proof.
  unfold find_column. rewrite find_map_snd.
  destruct (List.find _ (df_columns df)) as [[n b]|]; simpl; [|discriminate].
  intros H; inversion H; subst. reflexivity.
Qed.

Lemma find_column_In df name c :
  find_column df name = Some c -> exists n, In (n, c) (df_columns df) /\ n = name.
Proof.
  unfold find_column.
  destruct (List.find _ (df_columns df)) as [[n b]|] eqn:E; simpl; [|discriminate].
  intros H; inversion H; subst.
  apply find_some in E as [Hin Heq]. simpl in Heq.
  apply String.eqb_eq in Heq. exists n. split; [exact Hin|congruence].
Qed.

Lemma has_column_find df name :
  has_column df name = true <-> exists c, find_column df name = Some c.
Proof.
  unfold has_column, find_column, column_names.
  induction (df_columns df) as [|[n b] cols IH]; simpl.
  - split; [discriminate|intros [c H]; discriminate].
  - destruct (String.eqb name n); simpl; [split; eauto|exact IH].
Qed.

Lemma rectangular_column df name c :
  rectangular df -> find_column df name = Some c -> length (col_values c) = len df.
Proof.
  intros Hrect Hfind. apply find_column_In in Hfind as (n & Hin & _).
  unfold rectangular in Hrect. rewrite Forall_forall in Hrect.
  apply (Hrect (n, c)). apply list_elem_of_In. exact Hin.
Qed.

Lemma eq_mask_rows df name c v :
  rectangular df ->
  find_column df name = Some c ->
  map (fun x => cell_eqb x v) (col_values c) = map (row_matches name v) (rows df).
Proof.
  intros Hrect Hfind. unfold rows. apply eq_mask_rows_of.
  - apply find_column_values. exact Hfind.
  - apply (rectangular_column df name c Hrect Hfind).
Qed.

(** The mask of [dropna] marks the rows without a missing entry. *)
Lemma complete_mask_nil (cols : list (string * list cell)) :
  fold_right (fun c acc => mask_and (map notna (snd c)) acc) [] cols = [].
Proof.
  induction cols as [|[n vs] cols IH]; simpl; [reflexivity|].
  rewrite IH. unfold mask_and. destruct (map notna vs); reflexivity.
Qed.

Lemma complete_mask_cons (n : nat) (cols : list (string * list cell)) :
  Forall (fun c => length (snd c) = S n) cols ->
  fold_right (fun c acc => mask_and (map notna (snd c)) acc) (repeat true (S n)) cols
  = negb (existsb (fun nc => isna (snd nc)) (map (fun c => (fst c, hd NA (snd c))) cols))
    :: fold_right (fun c acc => mask_and (map notna (snd c)) acc) (repeat true n)
         (map (fun c => (fst c, tl (snd c))) cols).
Proof.
  induction 1 as [|[name vs] cols Hlen Hall IH]; simpl in *; [reflexivity|].
  rewrite IH. destruct vs as [|x xs]; [discriminate|]. simpl.
  unfold mask_and at 1. simpl. unfold notna. rewrite negb_orb. reflexivity.
Qed.

Lemma complete_mask_rows_of idx (cols : list (string * list cell)) :
  Forall (fun c => length (snd c) = length idx) cols ->
  fold_right (fun c acc => mask_and (map notna (snd c)) acc) (repeat true (length idx)) cols
  = map (fun r => negb (row_has_missing r)) (rows_of idx cols).
Proof.
  revert cols. induction idx as [|lbl idx IH]; intros cols Hall.
  - simpl. apply complete_mask_nil.
  - simpl length. rewrite complete_mask_cons by exact Hall.
    simpl. f_equal. apply IH.
    rewrite Forall_forall in Hall. rewrite Forall_forall. intros c Hc.
    apply list_elem_of_fmap in Hc as ([n vs] & -> & Hin). simpl.
    specialize (Hall _ Hin). simpl in Hall. destruct vs; simpl in *; lia.
Qed.

Lemma complete_rows_rows df :
  rectangular df ->
  complete_rows df = map (fun r => negb (row_has_missing r)) (rows df).
Proof.
  intros Hrect. unfold complete_rows, rows, len.
  rewrite <- complete_mask_rows_of.
  - induction (df_columns df) as [|c cols IH]; simpl; [reflexivity|].
    rewrite IH. reflexivity.
  - unfold rectangular, len in Hrect. rewrite Forall_forall in Hrect.
    rewrite Forall_forall. intros c Hc. apply list_elem_of_fmap in Hc as (c0 & -> & Hin). simpl.
    apply (Hrect _ Hin).
Qed.

Lemma dropna_rows df :
  rectangular df ->
  rows (DataFrame_dropna df) = List.filter (fun r => negb (row_has_missing r)) (rows df).
Proof.
  intros Hrect. unfold DataFrame_dropna.
  rewrite rows_mask, complete_rows_rows by exact Hrect.
  apply mask_select_map.
Qed.

Lemma dropna_len df :
  rectangular df -> len (DataFrame_dropna df) + rows_with_missing df = len df.
Proof.
  intros Hrect. rewrite <- (rows_length (DataFrame_dropna df)), dropna_rows by exact Hrect.
  unfold rows_with_missing. rewrite filter_length_complement. apply rows_length.
Qed.

Lemma fill_cell_notna c : isna (fill_cell (Num 0) c) = false.
Proof. destruct c; reflexivity. Qed.

Lemma fillna_count_na c : count_na (Column_fillna (Num 0) c) = 0.
Proof.
  unfold count_na, Column_fillna; simpl.
  induction (col_values c) as [|x xs IH]; simpl; [reflexivity|].
  rewrite fill_cell_notna. exact IH.
Qed.

Lemma fillna_total_missing df : total_missing (DataFrame_fillna (Num 0) df) = 0.
Proof.
  unfold total_missing, missing_values, DataFrame_fillna; simpl.
  induction (df_columns df) as [|c cols IH]; simpl; [reflexivity|].
  rewrite fillna_count_na. exact IH.
Qed.

(** ** Allocation and the heap *)

Lemma heap_preserved_refl w : heap_preserved w w.
Proof. intros l df H. exact H. Qed.

Lemma fresh_not_allocated (h : gmap loc DataFrame) : h !! fresh (dom h) = None.
Proof. apply not_elem_of_dom. apply is_fresh. Qed.

Lemma alloc_preserved (h : gmap loc DataFrame) (df : DataFrame) (out out' : list message) :
  heap_preserved {| heap := h; stdout := out |}
                 {| heap := <[fresh (dom h) := df]> h; stdout := out' |}.
Proof.
  intros l d H. simpl in *.
  rewrite lookup_insert_ne; [exact H|].
  intros <-. rewrite fresh_not_allocated in H. discriminate.
Qed.

Lemma print_preserved w out' : heap_preserved w {| heap := heap w; stdout := out' |}.
Proof. intros l d H. exact H. Qed.

Create HintDb heap.

#[local] Hint Resolve heap_preserved_refl alloc_preserved print_preserved : heap.

(** Unfolding one step of a method body. *)
Ltac step_M :=
  unfold mbind, M_bind, mret, M_ret, get_self, set_self, print, alloc, deref,
         update, lift, raise; cbn [heap stdout].

(** ** Properties of [NetflixDataLoader] *)

Section LoaderProperties.

Import NetflixDataLoader.

(** C3. On a loaded table, [handle_missing_values('drop')] returns a table
    with as many rows as the original minus the rows that contain a
    missing entry; [handle_missing_values('fill')] returns a table without
    missing entries and with the original number of rows. *)
Theorem handle_missing_values_row_counts (self : Loader) (w : World) (l : loc) (df : DataFrame) :
  data self = Some l ->
  heap w !! l = Some df ->
  rectangular df ->
  (exists l' cleaned w',
      handle_missing_values "drop" self w = (Ok (Some l'), self, w') /\
      heap w' !! l' = Some cleaned /\
      len cleaned = len df - rows_with_missing df) /\
  (exists l' filled w',
      handle_missing_values "fill" self w = (Ok (Some l'), self, w') /\
      heap w' !! l' = Some filled /\
      total_missing filled = 0 /\
      len filled = len df).
Proof.
  intros Hdata Hl Hrect. split.
  - unfold handle_missing_values. step_M. rewrite Hdata, String.eqb_refl, Hl.
    eexists _, _, _. split; [reflexivity|]. cbn [heap]. split.
    + apply lookup_insert_eq.
    + pose proof (dropna_len df Hrect). lia.
  - unfold handle_missing_values. step_M. rewrite Hdata.
    change (String.eqb "fill" "drop") with false. rewrite String.eqb_refl, Hl.
    eexists _, _, _. split; [reflexivity|]. cbn [heap]. split; [|split].
    + apply lookup_insert_eq.
    + apply fillna_total_missing.
    + reflexivity.
Qed.

(** C4. With a strategy other than ['drop'] and ['fill'],
    [handle_missing_values] reports the invalid strategy and returns the
    stored table itself; no object of the heap is touched. *)
Theorem handle_missing_values_invalid_strategy
    (self : Loader) (w : World) (l : loc) (df : DataFrame) (strategy : string) :
  data self = Some l ->
  heap w !! l = Some df ->
  strategy <> "drop" ->
  strategy <> "fill" ->
  exists w',
    handle_missing_values strategy self w = (Ok (Some l), self, w') /\
    heap w' = heap w /\
    heap w' !! l = Some df /\
    stdout w' = (stdout w ++ [MsgInvalidStrategy])%list.
Proof.
  intros Hdata Hl Hdrop Hfill.
  unfold handle_missing_values. step_M. rewrite Hdata.
  apply String.eqb_neq in Hdrop, Hfill. rewrite Hdrop, Hfill.
  eexists. split; [reflexivity|]. cbn [heap stdout]. auto.
Qed.

(** C5. On a loaded table, [filter_by_column] on an existing column
    returns exactly the rows whose entry in that column equals the value,
    in their order and with their labels, and as many rows as the source
    table has such rows; on a column that does not exist it returns
    [None]. *)
Theorem filter_by_column_rows
    (self : Loader) (w : World) (l : loc) (df : DataFrame) (column : string) (value : cell) :
  data self = Some l ->
  heap w !! l = Some df ->
  rectangular df ->
  match has_column df column with
  | true =>
      exists l' filtered w',
        filter_by_column column value self w = (Ok (Some l'), self, w') /\
        heap w' !! l' = Some filtered /\
        column_names filtered = column_names df /\
        rows filtered = List.filter (row_matches column value) (rows df) /\
        len filtered = length (List.filter (row_matches column value) (rows df))
  | false =>
      exists w',
        filter_by_column column value self w = (Ok None, self, w') /\
        heap w' = heap w /\
        stdout w' = (stdout w ++ [MsgColumnNotFound column])%list
  end.
Proof.
  intros Hdata Hl Hrect. destruct (has_column df column) eqn:Hcol.
  - unfold filter_by_column. step_M. rewrite Hdata, Hl, Hcol. cbn [negb].
    destruct (proj1 (has_column_find df column) Hcol) as [c Hfind].
    unfold getitem. rewrite Hfind.
    eexists _, _, _. split; [reflexivity|]. cbn [heap].
    assert (Hrows : rows (DataFrame_mask df (Series_eq
                      {| s_index := df_index df; s_dtype := col_dtype c;
                         s_values := col_values c |} value))
                    = List.filter (row_matches column value) (rows df)).
    { rewrite rows_mask. unfold Series_eq. cbn [s_values].
      rewrite (eq_mask_rows df column c value Hrect Hfind). apply mask_select_map. }
    split; [apply lookup_insert_eq|]. split; [|split].
    + unfold column_names, DataFrame_mask. cbn [df_columns].
      rewrite map_map. reflexivity.
    + exact Hrows.
    + rewrite <- Hrows. symmetry. apply rows_length.
  - unfold filter_by_column. step_M. rewrite Hdata, Hl, Hcol. cbn [negb].
    eexists. split; [reflexivity|]. cbn [heap stdout]. auto.
Qed.

(** [load_csv] is the call that assigns the stored table: a file that
    parses becomes a new object and [self.data] refers to it; a failed
    load leaves [self.data] as it was.  No existing object is touched. *)
Lemma load_csv_assigns read_csv filename self w :
  heap_preserved w (snd (load_csv read_csv filename self w)) /\
  match read_csv (path_join (data_path self) filename) with
  | CsvFrame df =>
      exists l,
        fst (load_csv read_csv filename self w)
        = (Ok (Some l), {| data_path := data_path self; data := Some l |}) /\
        heap w !! l = None /\
        heap (snd (load_csv read_csv filename self w)) !! l = Some df
  | _ => fst (load_csv read_csv filename self w) = (Ok None, self)
  end.
Proof.
  unfold load_csv. step_M. destruct w as [h out].
  destruct (read_csv _); cbn [fst snd heap stdout]; split; auto with heap.
  eexists. split; [reflexivity|]. split; [apply fresh_not_allocated|apply lookup_insert_eq].
Qed.

(** A call other than [load_csv] leaves the attributes of the loader and
    every object of the heap as they are. *)
Lemma exec_frame read_csv c self w :
  is_load c = false ->
  snd (fst (exec read_csv c self w)) = self /\
  heap_preserved w (snd (exec read_csv c self w)).
Proof.
  destruct c as [f| |n|s|col v]; intros Hc; try discriminate; unfold exec.
  - unfold get_basic_info. step_M.
    destruct (data self) as [l|]; [destruct (heap w !! l)|]; cbn; auto with heap.
  - unfold show_sample. step_M.
    destruct (data self) as [l|]; [destruct (heap w !! l)|]; cbn; auto with heap.
    split; [reflexivity|]. destruct w; apply alloc_preserved.
  - unfold handle_missing_values. step_M.
    destruct (data self) as [l|]; [|cbn; auto with heap].
    destruct (String.eqb s "drop"); [|destruct (String.eqb s "fill")].
    + destruct (heap w !! l); cbn; auto with heap.
      split; [reflexivity|]. destruct w; apply alloc_preserved.
    + destruct (heap w !! l); cbn; auto with heap.
      split; [reflexivity|]. destruct w; apply alloc_preserved.
    + cbn; auto with heap.
  - unfold filter_by_column. step_M.
    destruct (data self) as [l|]; [|cbn; auto with heap].
    destruct (heap w !! l) as [df|]; [|cbn; auto with heap].
    destruct (has_column df col); cbn [negb]; [|cbn; auto with heap].
    destruct (getitem df col); cbn; auto with heap.
    split; [reflexivity|]. destruct w; apply alloc_preserved.
Qed.

(** After any sequence of calls other than [load_csv], the loader still
    refers to the table it had loaded, and that table is unchanged. *)
Lemma run_frame
    (read_csv : string -> csv_outcome) (cs : list call)
    (self : Loader) (w : World) (l : loc) (df : DataFrame) :
  data self = Some l ->
  heap w !! l = Some df ->
  forallb (fun c => negb (is_load c)) cs = true ->
  fst (run read_csv cs self w) = self /\
  heap (snd (run read_csv cs self w)) !! l = Some df.
Proof.
  intros Hdata. revert w. induction cs as [|c cs IH]; intros w Hl Hcs.
  - split; [reflexivity|exact Hl].
  - cbn [forallb] in Hcs. apply andb_prop in Hcs as [Hc Hcs].
    apply negb_true_iff in Hc.
    destruct (exec_frame read_csv c self w Hc) as [Hself Hheap].
    cbn [run]. destruct (exec read_csv c self w) as [[r self'] w'].
    cbn [fst snd] in Hself, Hheap. subst self'.
    apply IH; [apply Hheap, Hl|exact Hcs].
Qed.

(** A new object leaves the objects that exist where they are. *)
Lemma lookup_alloc (h : gmap loc DataFrame) (l : loc) (df new : DataFrame) :
  h !! l = Some df -> <[fresh (dom h) := new]> h !! l = Some df.
Proof.
  intros Hl. rewrite lookup_insert_ne; [exact Hl|].
  intros <-. rewrite fresh_not_allocated in Hl. discriminate.
Qed.

(** C10. The stored table of a loader is assigned by [load_csv] only:
    after any sequence of other calls (inspecting, cleaning, filtering),
    the loader still refers to the table it had loaded, and that table is
    unchanged, so a later call observes it as loaded.  What cleaning and
    filtering return there: with ['drop'] or ['fill'], and with a filter
    on an existing column, a table that did not exist before the call;
    with any other strategy, the stored table itself. *)
Theorem stored_table_only_assigned_by_load_csv
    (read_csv : string -> csv_outcome) (cs : list call)
    (self : Loader) (w : World) (l : loc) (df : DataFrame) :
  data self = Some l ->
  heap w !! l = Some df ->
  forallb (fun c => negb (is_load c)) cs = true ->
  exists w1,
    run read_csv cs self w = (self, w1) /\
    heap w1 !! l = Some df /\
    (forall strategy, strategy = "drop" \/ strategy = "fill" ->
       exists l' w2,
         handle_missing_values strategy self w1 = (Ok (Some l'), self, w2) /\
         heap w1 !! l' = None /\
         is_Some (heap w2 !! l') /\
         heap w2 !! l = Some df) /\
    (forall column value, has_column df column = true ->
       exists l' w2,
         filter_by_column column value self w1 = (Ok (Some l'), self, w2) /\
         heap w1 !! l' = None /\
         is_Some (heap w2 !! l') /\
         heap w2 !! l = Some df) /\
    (forall strategy, strategy <> "drop" -> strategy <> "fill" ->
       exists w2,
         handle_missing_values strategy self w1 = (Ok (Some l), self, w2) /\
         heap w2 = heap w1).
Proof.
  intros Hdata Hl Hcs.
  destruct (run_frame read_csv cs self w l df Hdata Hl Hcs) as [Hself Hl1].
  destruct (run read_csv cs self w) as [self1 w1]. cbn [fst snd] in Hself, Hl1.
  subst self1. exists w1. split; [reflexivity|]. split; [exact Hl1|].
  split; [|split].
  - intros strategy [->| ->]; unfold handle_missing_values; step_M; rewrite Hdata.
    + rewrite String.eqb_refl, Hl1. eexists _, _. split; [reflexivity|]. cbn [heap].
      split; [apply fresh_not_allocated|].
      split; [rewrite lookup_insert_eq; eauto|apply lookup_alloc, Hl1].
    + change (String.eqb "fill" "drop") with false. rewrite String.eqb_refl, Hl1.
      eexists _, _. split; [reflexivity|]. cbn [heap].
      split; [apply fresh_not_allocated|].
      split; [rewrite lookup_insert_eq; eauto|apply lookup_alloc, Hl1].
  - intros column value Hcol. unfold filter_by_column. step_M.
    rewrite Hdata, Hl1, Hcol. cbn [negb].
    destruct (proj1 (has_column_find df column) Hcol) as [c Hfind].
    unfold getitem. rewrite Hfind.
    eexists _, _. split; [reflexivity|]. cbn [heap].
    split; [apply fresh_not_allocated|].
    split; [rewrite lookup_insert_eq; eauto|apply lookup_alloc, Hl1].
  - intros strategy Hdrop Hfill. unfold handle_missing_values. step_M. rewrite Hdata.
    apply String.eqb_neq in Hdrop, Hfill. rewrite Hdrop, Hfill.
    eexists. split; reflexivity.
Qed.

(** ** The loader on the four-record table *)

Lemma ratings_table_rectangular : rectangular ratings_table.
Proof. unfold rectangular, ratings_table. repeat constructor. Qed.

Lemma handle_missing_values_row_counts_witness :
  (exists l' cleaned w',
      handle_missing_values "drop" loaded (world_of ratings_table) = (Ok (Some l'), loaded, w') /\
      heap w' !! l' = Some cleaned /\
      len cleaned = len ratings_table - rows_with_missing ratings_table) /\
  (exists l' filled w',
      handle_missing_values "fill" loaded (world_of ratings_table) = (Ok (Some l'), loaded, w') /\
      heap w' !! l' = Some filled /\
      total_missing filled = 0 /\
      len filled = len ratings_table).
Proof.
  apply (handle_missing_values_row_counts loaded (world_of ratings_table) 0 ratings_table).
  - reflexivity.
  - reflexivity.
  - exact ratings_table_rectangular.
Defined.

Lemma handle_missing_values_invalid_strategy_witness :
  exists w',
    handle_missing_values "mean" loaded (world_of ratings_table) = (Ok (Some 0), loaded, w') /\
    heap w' = heap (world_of ratings_table) /\
    heap w' !! 0 = Some ratings_table /\
    stdout w' = [MsgInvalidStrategy].
Proof.
  apply (handle_missing_values_invalid_strategy loaded (world_of ratings_table) 0
           ratings_table "mean").
  - reflexivity.
  - reflexivity.
  - discriminate.
  - discriminate.
Defined.

Lemma filter_by_column_rows_witness :
  exists l' filtered w',
    filter_by_column "content_genre" (Str "Drama") loaded (world_of ratings_table)
    = (Ok (Some l'), loaded, w') /\
    heap w' !! l' = Some filtered /\
    column_names filtered = column_names ratings_table /\
    rows filtered
    = List.filter (row_matches "content_genre" (Str "Drama")) (rows ratings_table) /\
    len filtered
    = length (List.filter (row_matches "content_genre" (Str "Drama")) (rows ratings_table)).
Proof.
  apply (filter_by_column_rows loaded (world_of ratings_table) 0 ratings_table
           "content_genre" (Str "Drama")).
  - reflexivity.
  - reflexivity.
  - exact ratings_table_rectangular.
Defined.

Lemma stored_table_only_assigned_by_load_csv_witness :
  exists w1,
    run no_files
      [HandleMissingValues "drop"; FilterByColumn "content_genre" (Str "Drama");
       GetBasicInfo; ShowSample 2; HandleMissingValues "fill"]
      loaded (world_of ratings_table) = (loaded, w1) /\
    heap w1 !! 0 = Some ratings_table /\
    (forall strategy, strategy = "drop" \/ strategy = "fill" ->
       exists l' w2,
         handle_missing_values strategy loaded w1 = (Ok (Some l'), loaded, w2) /\
         heap w1 !! l' = None /\
         is_Some (heap w2 !! l') /\
         heap w2 !! 0 = Some ratings_table) /\
    (forall column value, has_column ratings_table column = true ->
       exists l' w2,
         filter_by_column column value loaded w1 = (Ok (Some l'), loaded, w2) /\
         heap w1 !! l' = None /\
         is_Some (heap w2 !! l') /\
         heap w2 !! 0 = Some ratings_table) /\
    (forall strategy, strategy <> "drop" -> strategy <> "fill" ->
       exists w2,
         handle_missing_values strategy loaded w1 = (Ok (Some 0), loaded, w2) /\
         heap w2 = heap w1).
Proof.
  apply (stored_table_only_assigned_by_load_csv no_files _ loaded (world_of ratings_table) 0
           ratings_table).
  - reflexivity.
  - reflexivity.
  - reflexivity.
Defined.

(** C10 as stated fails: with a strategy that is neither ['drop'] nor
    ['fill'], [handle_missing_values] returns no new table but the stored
    table itself, the very reference the loader holds; no object is
    created. *)
Lemma handle_missing_values_returns_stored_table :
  data loaded = Some 0 /\
  match handle_missing_values "mean" loaded (world_of ratings_table) with
  | (Ok (Some l'), self', w') =>
      l' = 0 /\ data self' = Some l' /\ heap w' = heap (world_of ratings_table)
  | _ => False
  end.
Proof. split; [reflexivity|]. cbn. repeat split. Qed.

(** What the cleaned and the filtered table are on the four records: one
    complete row is kept by ['drop'], one row has genre [Drama]. *)
Example ratings_table_dropna :
  rows (DataFrame_dropna ratings_table)
  = [(0, [("user_rating", Num 4); ("content_genre", Str "Drama")])].
Proof. reflexivity. Qed.

Example ratings_table_rows_with_missing : rows_with_missing ratings_table = 3.
Proof. reflexivity. Qed.

(** After filling, the loader still reports the missing entries of the
    table it loaded. *)
Example missing_values_after_fill :
  match run no_files [HandleMissingValues "fill"] loaded (world_of ratings_table) with
  | (self, w) =>
      match fst (fst (get_basic_info self w)) with
      | Ok (Some info) =>
          info_missing_values info = [("user_rating", 2); ("content_genre", 2)]
      | _ => False
      end
  end.
Proof. vm_compute. reflexivity. Qed.

End LoaderProperties.

(** ** Sorting and quantiles *)












Lemma mask_select_same_length {A B} (m : list bool) (xs : list A) (ys : list B) :
  length xs = length ys -> length (mask_select m xs) = length (mask_select m ys).
Proof.
  revert xs ys. induction m as [|b m IH]; intros [|x xs] [|y ys] Hlen; simpl in *;
    try discriminate; try reflexivity.
  destruct b; simpl; rewrite (IH xs ys) by lia; reflexivity.
Qed.


(** ** Frame conditions on method bodies *)

Section Frames.

Context {Self : Type}.

(** How a body may change the heap. *)
Variable R : gmap loc DataFrame -> gmap loc DataFrame -> Prop.
Hypothesis R_refl : forall h, R h h.
Hypothesis R_trans : forall h1 h2 h3, R h1 h2 -> R h2 h3 -> R h1 h3.

Lemma frame_ret {A} (self : Self) (a : A) : frame_at R self (mret a).
Proof. intros w. split; [reflexivity|apply R_refl]. Qed.

Lemma frame_raise {A} (self : Self) (e : exn) : frame_at R self (@raise Self A e).
Proof. intros w. split; [reflexivity|apply R_refl]. Qed.

Lemma frame_lift {A} (self : Self) (r : result A) : frame_at R self (lift r).
Proof. intros w. split; [reflexivity|apply R_refl]. Qed.

Lemma frame_print (self : Self) (m : message) : frame_at R self (print m).
Proof. intros w. split; [reflexivity|apply R_refl]. Qed.

Lemma frame_deref (self : Self) (l : loc) : frame_at R self (deref l).
Proof.
  intros w. unfold deref. destruct (heap w !! l); split; try reflexivity; apply R_refl.
Qed.

Lemma frame_bind {A B} (self : Self) (m : M Self A) (f : A -> M Self B) :
  frame_at R self m -> (forall a, frame_at R self (f a)) -> frame_at R self (m ≫= f).
Proof.
  intros Hm Hf w. specialize (Hm w). unfold mbind, M_bind.
  destruct (m self w) as [[[a|e] self'] w']; cbn [fst snd] in *.
  - destruct Hm as [-> HR]. destruct (Hf a w') as [Hs HR']. split; [exact Hs|].
    eapply R_trans; eassumption.
  - exact Hm.
Qed.

Lemma frame_get_self {B} (self : Self) (f : Self -> M Self B) :
  frame_at R self (f self) -> frame_at R self (get_self ≫= f).
Proof. intros Hf w. exact (Hf w). Qed.

End Frames.

Lemma same_heap_refl h : same_heap h h.
Proof. reflexivity. Qed.

Lemma same_heap_trans h1 h2 h3 : same_heap h1 h2 -> same_heap h2 h3 -> same_heap h1 h3.
Proof. unfold same_heap. congruence. Qed.

Lemma only_at_refl l h : only_at l h h.
Proof. intros l' _. reflexivity. Qed.

Lemma only_at_trans l h1 h2 h3 : only_at l h1 h2 -> only_at l h2 h3 -> only_at l h1 h3.
Proof. intros H12 H23 l' Hl. rewrite H23, H12 by exact Hl. reflexivity. Qed.

Lemma same_heap_only_at l h h' : same_heap h h' -> only_at l h h'.
Proof. intros -> l' _. reflexivity. Qed.

Lemma frame_update {Self} (self : Self) (l : loc) (df : DataFrame) :
  frame_at (only_at l) self (update l df).
Proof.
  intros w. split; [reflexivity|]. intros l' Hl. cbn.
  apply lookup_insert_ne. congruence.
Qed.

Lemma frame_weaken {Self A} (l : loc) (self : Self) (m : M Self A) :
  frame_at same_heap self m -> frame_at (only_at l) self m.
Proof. intros H w. destruct (H w) as [Hs Hh]. split; [exact Hs|]. apply same_heap_only_at, Hh. Qed.

(** Bodies made of reads, prints and raises: one step of the frame proof. *)
Ltac frame_step R_refl R_trans :=
  lazymatch goal with
  | |- frame_at _ _ (mret _) => apply (frame_ret _ R_refl)
  | |- frame_at _ _ (raise _) => apply (frame_raise _ R_refl)
  | |- frame_at _ _ (lift _) => apply (frame_lift _ R_refl)
  | |- frame_at _ _ (print _) => apply (frame_print _ R_refl)
  | |- frame_at _ _ (deref _) => apply (frame_deref _ R_refl)
  | |- frame_at _ _ (get_self ≫= _) => apply (frame_get_self _)
  | |- frame_at _ _ (_ ≫= _) => apply (frame_bind _ R_trans); [|intro]
  | |- frame_at _ _ (match ?x with _ => _ end) => destruct x
  | |- frame_at _ _ (let _ := _ in _) => cbv zeta
  end.

Ltac frame_same := repeat frame_step same_heap_refl same_heap_trans.

(** ** Properties of [NetflixExploratoryAnalysis] *)

Section AnalyzerProperties.

Import NetflixExploratoryAnalysis.

Lemma in_select_dtypes (incl : dtype -> bool) (df : DataFrame) (n : string) :
  In n (select_dtypes incl df) <->
  exists c, In (n, c) (df_columns df) /\ incl (col_dtype c) = true.
Proof.
  unfold select_dtypes. rewrite in_map_iff. split.
  - intros [[n' c] [Hn Hin]]. simpl in Hn. subst n'.
    apply filter_In in Hin as [Hin Hincl]. exists c. auto.
  - intros [c [Hin Hincl]]. exists (n, c). split; [reflexivity|].
    apply filter_In. auto.
Qed.

Lemma NoDup_find_column (df : DataFrame) (n : string) (c : Column) :
  NoDup (column_names df) -> In (n, c) (df_columns df) -> find_column df n = Some c.
Proof.
  unfold column_names, find_column.
  induction (df_columns df) as [|[n' c'] cols IH]; intros Hnd Hin; [destruct Hin|].
  simpl in Hnd. apply NoDup_cons in Hnd as [Hfresh Hnd]. simpl.
  destruct Hin as [Heq|Hin].
  - inversion Heq; subst. rewrite String.eqb_refl. reflexivity.
  - destruct (String.eqb n n') eqn:E.
    + apply String.eqb_eq in E. subst n'. exfalso. apply Hfresh.
      apply list_elem_of_In. apply (in_map fst _ (n, c)). exact Hin.
    + apply IH; assumption.
Qed.

Lemma select_dtypes_find (incl : dtype -> bool) (df : DataFrame) (n : string) :
  NoDup (column_names df) ->
  In n (select_dtypes incl df) <->
  exists c, find_column df n = Some c /\ incl (col_dtype c) = true.
Proof.
  intros Hnd. rewrite in_select_dtypes. split; intros [c [H Hincl]]; exists c; split; auto.
  - apply NoDup_find_column; assumption.
  - apply find_column_In in H as (n' & Hin & ->). exact Hin.
Qed.

Lemma init_spec (w : World) (r : loc) (df : DataFrame) :
  heap w !! r = Some df ->
  __init__ r tt w =
    (Ok {| data := fresh (dom (heap w));
           numerical_cols := select_dtypes is_number df;
           categorical_cols := select_dtypes is_object df |},
     tt,
     {| heap := <[fresh (dom (heap w)) := df]> (heap w); stdout := stdout w |}).
Proof. intros H. unfold __init__. step_M. rewrite H. reflexivity. Qed.

(** C6, as the code has it.  For a table with distinct column names, the
    constructor puts a column among the numerical ones exactly when its
    type is [Int64] or [Float64], and among the categorical ones exactly
    when its type is [ObjectT]; the two lists are disjoint and hold
    column names of the table only.  (A column of another type, [BoolT]
    or [Datetime64], is in neither list.) *)
Theorem classification_by_dtype (w : World) (r : loc) (df : DataFrame) :
  heap w !! r = Some df ->
  NoDup (column_names df) ->
  exists a w',
    __init__ r tt w = (Ok a, tt, w') /\
    (forall n, In n (numerical_cols a) <->
               exists c, find_column df n = Some c /\ is_number (col_dtype c) = true) /\
    (forall n, In n (categorical_cols a) <->
               exists c, find_column df n = Some c /\ col_dtype c = ObjectT) /\
    (forall n, In n (numerical_cols a) -> In n (categorical_cols a) -> False) /\
    (forall n, In n (numerical_cols a) \/ In n (categorical_cols a) -> In n (column_names df)).
Proof.
  intros Hr Hnd. eexists _, _. split; [apply init_spec; exact Hr|].
  cbn [numerical_cols categorical_cols].
  assert (Hobj : forall n, In n (select_dtypes is_object df) <->
                           exists c, find_column df n = Some c /\ col_dtype c = ObjectT).
  { intros n. rewrite select_dtypes_find by exact Hnd.
    split; intros [c [H Ht]]; exists c; split; auto.
    - destruct (col_dtype c); try discriminate; reflexivity.
    - rewrite Ht. reflexivity. }
  split; [intros n; apply select_dtypes_find; exact Hnd|].
  split; [exact Hobj|]. split.
  - intros n Hnum Hcat.
    apply (select_dtypes_find is_number df n Hnd) in Hnum as [c [Hc Hnum]].
    apply Hobj in Hcat as [c' [Hc' Hcat]].
    rewrite Hc in Hc'. inversion Hc'; subst c'. rewrite Hcat in Hnum. discriminate.
  - intros n [H|H]; apply in_select_dtypes in H as [c [Hin _]];
      apply (in_map fst _ (n, c)); exact Hin.
Qed.

Section Calls.

Variable parse_datetime : cell -> result Z.
Variable Summary : Type.
Variable describe_stats : list (string * Column) -> result Summary.
Variable Corr : Type.
Variable corr : list (string * Column) -> string -> result Corr.

Abbreviation exec := (exec parse_datetime Summary describe_stats Corr corr).
Abbreviation run := (run parse_datetime Summary describe_stats Corr corr).

Lemma categorical_loop_frame self cols acc :
  frame_at same_heap self (categorical_loop cols acc).
Proof.
  revert acc. induction cols as [|col cols IH]; intros acc; cbn [categorical_loop].
  - frame_same.
  - frame_same. apply IH.
Qed.

Lemma detect_outliers_frame self column method :
  frame_at same_heap self (detect_outliers column method).
Proof. unfold detect_outliers, outlier_branches. frame_same. Qed.

(** Every call but [time_series_analysis] reads the heap only. *)
Lemma exec_read_only (c : call) (self : Analyzer) :
  is_time_series c = false -> frame_at same_heap self (exec c).
Proof.
  destruct c; intros Hc; try discriminate; cbn [NetflixExploratoryAnalysis.exec].
  - unfold generate_statistical_summary. frame_same.
  - unfold analyze_distributions. frame_same.
  - unfold correlation_analysis. frame_same.
  - frame_same. apply detect_outliers_frame.
  - unfold categorical_analysis. frame_same. apply categorical_loop_frame.
Qed.

Lemma time_series_analysis_frame self d v :
  frame_at (only_at (data self)) self (time_series_analysis parse_datetime d v).
Proof.
  unfold time_series_analysis.
  repeat first [ apply frame_update
               | frame_step (only_at_refl (data self)) (only_at_trans (data self)) ].
Qed.

(** No call changes an object other than the analyzer's own frame. *)
Lemma exec_own_frame (c : call) (self : Analyzer) :
  frame_at (only_at (data self)) self (exec c).
Proof.
  destruct (is_time_series c) eqn:E.
  - destruct c; try discriminate. cbn [NetflixExploratoryAnalysis.exec].
    apply (frame_bind _ (only_at_trans (data self))).
    + apply time_series_analysis_frame.
    + intros a. apply (frame_ret _ (only_at_refl (data self))).
  - apply frame_weaken, exec_read_only, E.
Qed.

Lemma run_own_frame (cs : list call) (self : Analyzer) (w : World) :
  fst (run cs self w) = self /\ only_at (data self) (heap w) (heap (snd (run cs self w))).
Proof.
  revert w. induction cs as [|c cs IH]; intros w; cbn [NetflixExploratoryAnalysis.run].
  - split; [reflexivity|apply only_at_refl].
  - destruct (exec_own_frame c self w) as [Hs Hh].
    destruct (exec c self w) as [[r self'] w']. cbn [fst snd] in Hs, Hh. subst self'.
    destruct (IH w') as [Hs' Hh']. split; [exact Hs'|].
    eapply only_at_trans; eassumption.
Qed.

(** C7. The constructor stores a copy of the table it is given: whatever
    calls follow on the analyzer, [time_series_analysis] included, the
    caller's table is the same afterwards. *)
Theorem caller_table_unchanged (cs : list call) (w : World) (r : loc) (df : DataFrame) :
  heap w !! r = Some df ->
  exists a w1,
    __init__ r tt w = (Ok a, tt, w1) /\
    data a <> r /\
    heap w1 !! data a = Some df /\
    heap (snd (run cs a w1)) !! r = Some df.
Proof.
  intros Hr. eexists _, _. split; [apply init_spec; exact Hr|]. cbn [data heap].
  assert (Hne : fresh (dom (heap w)) <> r).
  { intros E. rewrite <- E, fresh_not_allocated in Hr. discriminate. }
  split; [exact Hne|]. split; [apply lookup_insert_eq|].
  match goal with
  | |- heap (snd (run cs ?a ?w1)) !! r = _ =>
      destruct (run_own_frame cs a w1) as [_ Hh]
  end.
  cbn [data heap] in Hh. rewrite Hh by congruence.
  rewrite lookup_insert_ne by exact Hne. exact Hr.
Qed.

Lemma to_datetime_index (s converted : Series) :
  to_datetime parse_datetime s = Ok converted ->
  s_index converted = s_index s /\ s_dtype converted = Datetime64.
Proof.
  unfold to_datetime. destruct (cells_to_datetime _ _); [|discriminate].
  intros H; inversion H; subst. split; reflexivity.
Qed.

Lemma getitem_index (df : DataFrame) (name : string) (s : Series) :
  getitem df name = Ok s -> s_index s = df_index df /\ has_column df name = true.
Proof.
  unfold getitem. destruct (find_column df name) as [c|] eqn:E; [|discriminate].
  intros H; inversion H; subst. split; [reflexivity|].
  apply has_column_find. eauto.
Qed.

Lemma getitem_setitem (df : DataFrame) (name : string) (s : Series) :
  has_column df name = true ->
  s_index s = df_index df ->
  getitem (setitem df name s) name = Ok s.
Proof.
  intros Hcol Hidx. unfold getitem, find_column, setitem. rewrite Hcol.
  cbn [df_columns df_index].
  unfold has_column, column_names in Hcol.
  induction (df_columns df) as [|[n c] cols IH]; [discriminate|].
  cbn [map fst existsb] in *. destruct (String.eqb name n) eqn:E; cbn [List.find fst].
  - rewrite E. cbn. rewrite <- Hidx. destruct s; reflexivity.
  - rewrite E. apply IH. exact Hcol.
Qed.

(** C9. [time_series_analysis] overwrites the date column of the
    analyzer's own table with its parsed form, of type [Datetime64],
    before it groups: the table stays converted whether the call then
    returns or raises (it raises [KeyError] when the value column does not
    exist), and a later call reads the converted column.  Every other call
    leaves the attributes of the analyzer and the whole heap as they
    are. *)
Theorem only_time_series_analysis_mutates
    (self : Analyzer) (w : World) (c : call) (d v : string)
    (df : DataFrame) (s converted : Series) :
  is_time_series c = false ->
  heap w !! data self = Some df ->
  getitem df d = Ok s ->
  to_datetime parse_datetime s = Ok converted ->
  (snd (fst (exec c self w)) = self /\
   heap (snd (exec c self w)) = heap w) /\
  (snd (fst (time_series_analysis parse_datetime d v self w)) = self /\
   heap (snd (time_series_analysis parse_datetime d v self w))
     = <[data self := setitem df d converted]> (heap w) /\
   getitem (setitem df d converted) d = Ok converted /\
   s_dtype converted = Datetime64 /\
   (if has_column (setitem df d converted) v then True
    else fst (fst (time_series_analysis parse_datetime d v self w)) = Raise KeyError)).
Proof.
  intros Hc Hdf Hget Hconv. split.
  - exact (exec_read_only c self Hc w).
  - destruct (to_datetime_index s converted Hconv) as [Hidx Hty].
    destruct (getitem_index df d s Hget) as [Hidx' Hcol].
    assert (Hget' : getitem (setitem df d converted) d = Ok converted).
    { apply getitem_setitem; [exact Hcol|congruence]. }
    assert (Hkey : has_column (setitem df d converted) v = false ->
                   getitem (setitem df d converted) v = Raise KeyError).
    { intros Hv. unfold getitem.
      destruct (find_column (setitem df d converted) v) as [c'|] eqn:Ef; [|reflexivity].
      assert (has_column (setitem df d converted) v = true)
        by (apply has_column_find; eauto).
      congruence. }
    destruct (has_column (setitem df d converted) v) eqn:Hv.
    + unfold time_series_analysis. step_M. rewrite Hdf, Hget, Hconv.
      cbn [heap]. rewrite lookup_insert_eq, Hget'.
      destruct (getitem (setitem df d converted) v) as [vs|e];
        [destruct (groupby_agg _ vs)|]; cbn; repeat split; auto.
    + specialize (Hkey eq_refl).
      unfold time_series_analysis. step_M. rewrite Hdf, Hget, Hconv.
      cbn [heap]. rewrite lookup_insert_eq, Hget', Hkey.
      cbn. repeat split; auto.
Qed.

End Calls.

(** C2, where the code departs from it.  On a numerical column of the
    analyzer's table, [detect_outliers] with a method other than ['iqr']
    and ['zscore'] binds neither [outliers] nor [stats_dict]; it prints the
    first line of its report and raises [UnboundLocalError]. *)
Theorem detect_outliers_unsupported_method_raises
    (self : Analyzer) (w : World) (df : DataFrame) (column method : string) :
  existsb (String.eqb column) (numerical_cols self) = true ->
  heap w !! data self = Some df ->
  has_column df column = true ->
  method <> "iqr" ->
  method <> "zscore" ->
  detect_outliers column method self w
  = (Raise UnboundLocalError, self,
     {| heap := heap w; stdout := (stdout w ++ [MsgOutliersDetected column])%list |}).
Proof.
  intros Hnum Hdf Hcol Hiqr Hz.
  apply has_column_find in Hcol as [c Hc].
  apply String.eqb_neq in Hiqr, Hz.
  unfold detect_outliers, outlier_branches. step_M.
  rewrite Hnum. cbn [negb]. rewrite Hdf. unfold getitem. rewrite Hc, Hiqr, Hz.
  reflexivity.
Qed.

Lemma bump_not_nil x acc : bump x acc <> [].
Proof. destruct acc as [|[k n] acc]; simpl; [discriminate|]. destruct (cell_eqb k x); discriminate. Qed.

Lemma fold_bump_not_nil cs acc :
  acc <> [] -> fold_left (fun acc x => bump x acc) cs acc <> [].
Proof.
  revert acc. induction cs as [|c cs IH]; intros acc Hacc; simpl; [exact Hacc|].
  apply IH, bump_not_nil.
Qed.

Lemma insert_by_count_not_nil x l : insert_by_count x l <> [].
Proof. destruct l as [|y l]; simpl; [discriminate|]. destruct (Nat.leb _ _); discriminate. Qed.

Lemma value_counts_not_nil (s : Series) :
  existsb notna (s_values s) = true -> value_counts s <> [].
Proof.
  intros Hex. unfold value_counts, Series_dropna. cbn [s_values].
  rewrite mask_select_map.
  assert (Hne : List.filter notna (s_values s) <> []).
  { apply existsb_exists in Hex as [x [Hin Hx]].
    intros E. assert (Hx' : In x (List.filter notna (s_values s))) by (apply filter_In; auto).
    rewrite E in Hx'. destruct Hx'. }
  destruct (List.filter notna (s_values s)) as [|c cs]; [congruence|].
  unfold tally. cbn [fold_left].
  pose proof (fold_bump_not_nil cs (bump c []) (bump_not_nil c [])) as Ht.
  destruct (fold_left _ cs (bump c [])) as [|t ts]; [congruence|].
  simpl. apply insert_by_count_not_nil.
Qed.

Lemma profile_of_some (s : Series) :
  existsb notna (s_values s) = true -> exists p, profile_of s = Some p.
Proof.
  intros Hex. unfold profile_of.
  pose proof (value_counts_not_nil s Hex) as Hne.
  destruct (value_counts s) as [|[v n] vc]; [congruence|]. eauto.
Qed.

(** The loop of [categorical_analysis] returns when every listed column
    exists and has a value; it then maps each listed column to its
    profile and keeps the other entries. *)
Lemma categorical_loop_spec (df : DataFrame) (self : Analyzer) (cols : list string) :
  (forall n, In n cols -> exists s p, getitem df n = Ok s /\ profile_of s = Some p) ->
  forall acc w,
    heap w !! data self = Some df ->
    exists res w',
      categorical_loop cols acc self w = (Ok res, self, w') /\
      heap w' = heap w /\
      (forall n s p, In n cols -> getitem df n = Ok s -> profile_of s = Some p ->
                     res !! n = Some p) /\
      (forall n, ~ In n cols -> res !! n = acc !! n).
Proof.
  induction cols as [|col cols IH]; intros Hall acc w Hdf.
  - exists acc, w. cbn. repeat split; auto. intros n s p [].
  - destruct (Hall col (or_introl eq_refl)) as (s & p & Hs & Hp).
    cbn [categorical_loop]. step_M. rewrite Hdf, Hs.
    unfold profile_of in Hp.
    destruct (value_counts s) as [|[v k] vc] eqn:Evc; [discriminate|].
    cbn zeta.
    edestruct (IH (fun n Hn => Hall n (or_intror Hn))) as (res & w' & Hrun & Hheap & Hin & Hout);
      [|rewrite Hrun]; [exact Hdf|].
    exists res, w'. split; [reflexivity|]. split; [exact Hheap|]. split.
    + intros n s' p' Hn Hs' Hp'.
      destruct (in_dec String.string_dec n cols) as [Hc|Hc]; [eapply Hin; eassumption|].
      destruct Hn as [<-|Hn]; [|contradiction].
      rewrite Hout by exact Hc. rewrite lookup_insert_eq.
      rewrite Hs in Hs'. inversion Hs'; subst s'.
      unfold profile_of in Hp'. rewrite Evc in Hp'. inversion Hp'. reflexivity.
    + intros n Hn. rewrite Hout by (intros Hc; apply Hn; right; exact Hc).
      apply lookup_insert_ne. intros <-. apply Hn. left. reflexivity.
Qed.













(** ** The analyzer on the example tables *)

Lemma NoDup_names_3 (a b c : string) : a <> b -> a <> c -> b <> c -> NoDup [a; b; c].
Proof.
  intros Hab Hac Hbc. repeat constructor; rewrite ?elem_of_cons, ?elem_of_nil; tauto.
Qed.

Lemma NoDup_names_2 (a b : string) : a <> b -> NoDup [a; b].
Proof.
  intros Hab. repeat constructor; rewrite ?elem_of_cons, ?elem_of_nil; tauto.
Qed.

Lemma outlier_table_names : NoDup (column_names outlier_table).
Proof. apply NoDup_names_3; discriminate. Qed.




Lemma classification_by_dtype_witness :
  exists a w',
    __init__ 0 tt (world_of outlier_table) = (Ok a, tt, w') /\
    (forall n, In n (numerical_cols a) <->
               exists c, find_column outlier_table n = Some c /\
                         is_number (col_dtype c) = true) /\
    (forall n, In n (categorical_cols a) <->
               exists c, find_column outlier_table n = Some c /\ col_dtype c = ObjectT) /\
    (forall n, In n (numerical_cols a) -> In n (categorical_cols a) -> False) /\
    (forall n, In n (numerical_cols a) \/ In n (categorical_cols a) ->
               In n (column_names outlier_table)).
Proof.
  apply (classification_by_dtype (world_of outlier_table) 0 outlier_table).
  - reflexivity.
  - exact outlier_table_names.
Defined.

(** C6 as stated fails: the boolean column of the seven records is a
    column of the table and belongs to neither list. *)
Lemma classification_misses_boolean_column :
  match __init__ 0 tt (world_of outlier_table) with
  | (Ok a, _, _) =>
      numerical_cols a = ["watch_duration"] /\
      categorical_cols a = ["content_genre"] /\
      In "is_premium" (column_names outlier_table) /\
      ~ In "is_premium" (numerical_cols a) /\
      ~ In "is_premium" (categorical_cols a)
  | _ => False
  end.
Proof.
  cbn. repeat split.
  - right. right. left. reflexivity.
  - intros [H|[]]. discriminate H.
  - intros [H|[]]. discriminate H.
Qed.



Lemma caller_table_unchanged_witness :
  exists a w1,
    __init__ 0 tt (world_of sessions_table) = (Ok a, tt, w1) /\
    data a <> 0 /\
    heap w1 !! data a = Some sessions_table /\
    heap (snd (run parse_ns unit no_summary unit no_corr
                 [TimeSeriesAnalysis "started" "minutes";
                  DetectOutliers "minutes" "zscore";
                  GenerateStatisticalSummary;
                  CategoricalAnalysis]
                 a w1)) !! 0 = Some sessions_table.
Proof.
  apply (caller_table_unchanged parse_ns unit no_summary unit no_corr _
           (world_of sessions_table) 0 sessions_table).
  reflexivity.
Defined.

Example sessions_analyzer_init :
  __init__ 0 tt (world_of sessions_table) = (Ok sessions_analyzer, tt, sessions_world).
Proof. vm_compute. reflexivity. Qed.

Lemma only_time_series_analysis_mutates_witness :
  (snd (fst (exec parse_ns unit no_summary unit no_corr (DetectOutliers "minutes" "iqr")
               sessions_analyzer sessions_world)) = sessions_analyzer /\
   heap (snd (exec parse_ns unit no_summary unit no_corr (DetectOutliers "minutes" "iqr")
                sessions_analyzer sessions_world)) = heap sessions_world) /\
  (snd (fst (time_series_analysis parse_ns "started" "watched"
               sessions_analyzer sessions_world)) = sessions_analyzer /\
   heap (snd (time_series_analysis parse_ns "started" "watched"
                sessions_analyzer sessions_world))
     = <[1 := setitem sessions_table "started" sessions_converted]> (heap sessions_world) /\
   getitem (setitem sessions_table "started" sessions_converted) "started"
     = Ok sessions_converted /\
   s_dtype sessions_converted = Datetime64 /\
   fst (fst (time_series_analysis parse_ns "started" "watched"
               sessions_analyzer sessions_world)) = Raise KeyError).
Proof.
  apply (only_time_series_analysis_mutates parse_ns unit no_summary unit no_corr
           sessions_analyzer sessions_world (DetectOutliers "minutes" "iqr")
           "started" "watched" sessions_table
           {| s_index := [0; 1; 2]; s_dtype := Int64;
              s_values := [Num 3600000000000; Num 7200000000000; Num 90000000000000] |}
           sessions_converted).
  - reflexivity.
  - reflexivity.
  - reflexivity.
  - reflexivity.
Defined.

(** The two sessions of the first day are one row of the aggregate. *)
Example sessions_by_day :
  fst (fst (time_series_analysis parse_ns "started" "minutes"
              sessions_analyzer sessions_world))
  = Ok [ {| date := 0; mean := Some (75 # 2); sum := 75; count := 2 |};
         {| date := 1; mean := Some 15%Q; sum := 15; count := 1 |} ].
Proof. vm_compute. reflexivity. Qed.

Lemma detect_outliers_unsupported_method_raises_witness :
  detect_outliers "minutes" "mad" sessions_analyzer sessions_world
  = (Raise UnboundLocalError, sessions_analyzer,
     {| heap := heap sessions_world; stdout := [MsgOutliersDetected "minutes"] |}).
Proof.
  apply (detect_outliers_unsupported_method_raises sessions_analyzer sessions_world
           sessions_table "minutes" "mad").
  - reflexivity.
  - reflexivity.
  - reflexivity.
  - discriminate.
  - discriminate.
Defined.

(** Two more calls that raise: on a column without any value, both
    outlier methods divide by the number of values, and
    [categorical_analysis] takes the first of no value counts. *)

Example blank_analyzer_init :
  __init__ 0 tt (world_of blank_table) = (Ok blank_analyzer, tt, blank_world).
Proof. vm_compute. reflexivity. Qed.

Example detect_outliers_iqr_all_missing :
  fst (fst (detect_outliers "user_rating" "iqr" blank_analyzer blank_world))
  = Raise ZeroDivisionError.
Proof. vm_compute. reflexivity. Qed.

Example detect_outliers_zscore_all_missing :
  fst (fst (detect_outliers "user_rating" "zscore" blank_analyzer blank_world))
  = Raise ZeroDivisionError.
Proof. vm_compute. reflexivity. Qed.

Example categorical_analysis_all_missing :
  fst (fst (categorical_analysis blank_analyzer blank_world)) = Raise IndexError.
Proof. vm_compute. reflexivity. Qed.

End AnalyzerProperties.

(** * Further properties of [NetflixDataLoader] *)

Section LoaderCalls.

Import NetflixDataLoader.

(** The three branches of [load_csv]. *)
Lemma load_csv_cases
    (read_csv : string -> csv_outcome) (filename : string) (self : Loader) (w : World) :
  match read_csv (path_join (data_path self) filename) with
  | CsvFrame df =>
      exists l,
        heap w !! l = None /\
        load_csv read_csv filename self w
        = (Ok (Some l),
           {| data_path := data_path self; data := Some l |},
           {| heap := <[l := df]> (heap w);
              stdout := (stdout w ++ [MsgLoaded filename;
                                      MsgShape (len df) (length (df_columns df))])%list |})
  | CsvFileNotFound =>
      load_csv read_csv filename self w
      = (Ok None, self,
         {| heap := heap w;
            stdout := (stdout w ++ [MsgFileNotFound filename
                                      (path_join (data_path self) filename)])%list |})
  | CsvError err =>
      load_csv read_csv filename self w
      = (Ok None, self,
         {| heap := heap w; stdout := (stdout w ++ [MsgLoadError err])%list |})
  end.
Proof.
  unfold load_csv. step_M. destruct (read_csv _); try reflexivity.
  exists (fresh (dom (heap w))). split; [apply fresh_not_allocated|].
  cbn. rewrite <- app_assoc. reflexivity.
Qed.

Lemma rows_of_take (k : nat) idx (cols : list (string * list cell)) :
  rows_of (take k idx) (map (fun c => (fst c, take k (snd c))) cols)
  = take k (rows_of idx cols).
Proof.
  revert idx cols. induction k as [|k IH]; intros idx cols.
  - destruct idx; reflexivity.
  - destruct idx as [|lbl idx]; [reflexivity|].
    cbn [take rows_of]. f_equal.
    + f_equal. rewrite map_map. apply map_ext. intros [n [|x xs]]; reflexivity.
    + rewrite <- IH. f_equal. rewrite !map_map. apply map_ext.
      intros [n [|x xs]]; cbn; [|reflexivity]. destruct k; reflexivity.
Qed.

Lemma head_rows (n : Z) (df : DataFrame) :
  rows (head n df) = take (head_count n (len df)) (rows df).
Proof.
  unfold rows, head. cbn [df_index df_columns].
  rewrite <- rows_of_take. f_equal. rewrite !map_map. reflexivity.
Qed.

(** [show_sample(n)] on a loaded table returns a new table made of the
    first [n] rows, with their labels and all columns; of all rows when
    the table has fewer; and, for a negative [n], of all rows but the last
    [-n].  It prints nothing. *)
Theorem show_sample_first_rows
    (self : Loader) (w : World) (l : loc) (df : DataFrame) (n : Z) :
  data self = Some l ->
  heap w !! l = Some df ->
  exists l' sample,
    show_sample n self w
    = (Ok (Some l'), self, {| heap := <[l' := sample]> (heap w); stdout := stdout w |}) /\
    l' <> l /\
    column_names sample = column_names df /\
    rows sample
    = take (if (0 <=? n)%Z then Z.to_nat n else len df - Z.to_nat (- n)) (rows df) /\
    len sample
    = Nat.min (if (0 <=? n)%Z then Z.to_nat n else len df - Z.to_nat (- n)) (len df).
Proof.
  intros Hdata Hl. unfold show_sample. step_M. rewrite Hdata, Hl.
  eexists _, _. split; [reflexivity|]. split; [|split; [|split]].
  - intros E. pose proof (fresh_not_allocated (heap w)) as Hf.
    rewrite E, Hl in Hf. discriminate.
  - unfold column_names, head. cbn [df_columns]. rewrite map_map. reflexivity.
  - apply head_rows.
  - unfold len, head. cbn [df_index]. rewrite length_take. reflexivity.
Qed.

(** ** Masks keep a frame well formed *)

Lemma mask_rectangular (df : DataFrame) (m : list bool) :
  rectangular df -> rectangular (DataFrame_mask df m).
Proof.
  unfold rectangular, DataFrame_mask, len. cbn [df_index df_columns].
  intros H. rewrite Forall_forall in H. rewrite Forall_forall. intros c Hc.
  apply list_elem_of_fmap in Hc as (c0 & -> & Hin). cbn.
  apply mask_select_same_length. apply (H _ Hin).
Qed.

Lemma mask_column_names (df : DataFrame) (m : list bool) :
  column_names (DataFrame_mask df m) = column_names df.
Proof. unfold column_names, DataFrame_mask. cbn. rewrite map_map. reflexivity. Qed.

Lemma mask_column_dtypes (df : DataFrame) (m : list bool) :
  column_dtypes (DataFrame_mask df m) = column_dtypes df.
Proof. unfold column_dtypes, DataFrame_mask. cbn. rewrite map_map. reflexivity. Qed.

Lemma mask_select_all {A} (n : nat) (xs : list A) :
  length xs <= n -> mask_select (repeat true n) xs = xs.
Proof.
  revert xs. induction n as [|n IH]; intros [|x xs] Hlen; cbn in *; try reflexivity; [lia|].
  rewrite IH by lia. reflexivity.
Qed.

Lemma mask_all_id (df : DataFrame) :
  rectangular df -> DataFrame_mask df (repeat true (len df)) = df.
Proof.
  intros Hrect. destruct df as [idx cols]. unfold DataFrame_mask, rectangular, len in *.
  cbn [df_index df_columns] in *. f_equal.
  - apply mask_select_all. lia.
  - induction Hrect as [|[n [t vs]] cols Hlen Hall IH]; cbn; [reflexivity|].
    rewrite IH. unfold Column_mask. cbn in *.
    rewrite mask_select_all by lia. reflexivity.
Qed.

Lemma find_column_mask (df : DataFrame) (m : list bool) (name : string) :
  find_column (DataFrame_mask df m) name = Column_mask m <$> find_column df name.
Proof.
  unfold find_column, DataFrame_mask. cbn [df_columns].
  rewrite (find_map_snd (Column_mask m)).
  destruct (List.find _ (df_columns df)) as [[n c]|]; reflexivity.
Qed.

Lemma has_column_mask (df : DataFrame) (m : list bool) (name : string) :
  has_column (DataFrame_mask df m) name = has_column df name.
Proof. unfold has_column. rewrite mask_column_names. reflexivity. Qed.

(** ** Cleaning *)

Lemma total_missing_zero (df : DataFrame) :
  total_missing df = 0 <->
  Forall (fun c => forallb notna (col_values (snd c)) = true) (df_columns df).
Proof.
  unfold total_missing, missing_values. rewrite map_map. cbn.
  induction (df_columns df) as [|[n c] cols IH]; cbn.
  - split; [constructor|reflexivity].
  - rewrite Forall_cons. rewrite <- IH. cbn. unfold count_na.
    assert (Hc : length (List.filter isna (col_values c)) = 0
                 <-> forallb notna (col_values c) = true).
    { induction (col_values c) as [|x xs IHx]; cbn; [tauto|].
      unfold notna at 1. destruct (isna x); cbn; [split; [lia|discriminate]|exact IHx]. }
    rewrite <- Hc. fold (list_sum (map (fun x : string * Column =>
      length (List.filter isna (col_values (snd x)))) cols)). lia.
Qed.

Lemma forallb_mask_and_l (p : cell -> bool) (vals : list cell) (acc : list bool) :
  forallb p (mask_select (mask_and (map p vals) acc) vals) = true.
Proof.
  unfold mask_and. revert acc. induction vals as [|x xs IH]; intros [|b acc]; cbn; try reflexivity.
  destruct (p x) eqn:E; cbn; [|apply IH].
  destruct b; cbn; [rewrite E; apply IH|apply IH].
Qed.

Lemma forallb_mask_and_r (p : cell -> bool) (vals : list cell) (m acc : list bool) :
  forallb p (mask_select acc vals) = true ->
  forallb p (mask_select (mask_and m acc) vals) = true.
Proof.
  unfold mask_and. revert acc vals.
  induction m as [|a m IH]; intros [|b acc] [|x xs] H; cbn in *; try reflexivity.
  destruct b; cbn in *.
  - apply andb_prop in H as [Hx H]. destruct a; cbn; [rewrite Hx|]; apply IH, H.
  - rewrite andb_false_r. apply IH, H.
Qed.

(** A row that [dropna] keeps has a value in every column. *)
Lemma complete_rows_column (df : DataFrame) (c : string * Column) :
  In c (df_columns df) ->
  forallb notna (mask_select (complete_rows df) (col_values (snd c))) = true.
Proof.
  unfold complete_rows. generalize (repeat true (len df)) as base.
  induction (df_columns df) as [|c0 cols IH]; intros base Hin; [destruct Hin|].
  cbn [fold_right]. destruct Hin as [->|Hin].
  - apply forallb_mask_and_l.
  - apply forallb_mask_and_r. apply IH, Hin.
Qed.

Lemma dropna_total_missing (df : DataFrame) : total_missing (DataFrame_dropna df) = 0.
Proof.
  apply total_missing_zero. unfold DataFrame_dropna, DataFrame_mask. cbn [df_columns].
  rewrite Forall_forall. intros c Hc.
  apply list_elem_of_fmap in Hc as (c0 & -> & Hin). cbn.
  apply complete_rows_column. apply list_elem_of_In. exact Hin.
Qed.

Lemma notna_mask_all (vals : list cell) :
  forallb notna vals = true -> map notna vals = repeat true (length vals).
Proof.
  induction vals as [|x xs IH]; cbn; [reflexivity|].
  intros H. apply andb_prop in H as [-> H]. rewrite IH by exact H. reflexivity.
Qed.

Lemma mask_and_all (n : nat) : mask_and (repeat true n) (repeat true n) = repeat true n.
Proof. unfold mask_and. induction n as [|n IH]; cbn; [reflexivity|]. rewrite IH. reflexivity. Qed.

Lemma complete_rows_all (df : DataFrame) :
  rectangular df -> total_missing df = 0 -> complete_rows df = repeat true (len df).
Proof.
  intros Hrect Hmiss. apply total_missing_zero in Hmiss.
  unfold complete_rows, rectangular in *.
  induction Hrect as [|c cols Hlen Hall IH]; cbn; [reflexivity|].
  apply Forall_cons in Hmiss as [Hc Hmiss].
  rewrite IH by exact Hmiss. rewrite (notna_mask_all _ Hc), Hlen. apply mask_and_all.
Qed.

(** [handle_missing_values('drop')] on a loaded table returns a new table
    with the columns and column types of the original, made of exactly the
    rows that have a value in every column, in their order and with their
    labels; it has no missing entry, and the number printed is the number
    of rows that had one. *)
Theorem handle_missing_values_drop_result
    (self : Loader) (w : World) (l : loc) (df : DataFrame) :
  data self = Some l ->
  heap w !! l = Some df ->
  rectangular df ->
  exists l' cleaned,
    handle_missing_values "drop" self w
    = (Ok (Some l'), self,
       {| heap := <[l' := cleaned]> (heap w);
          stdout := (stdout w ++ [MsgDropped (Z.of_nat (rows_with_missing df))])%list |}) /\
    l' <> l /\
    column_dtypes cleaned = column_dtypes df /\
    rows cleaned = List.filter (fun r => negb (row_has_missing r)) (rows df) /\
    total_missing cleaned = 0 /\
    rectangular cleaned.
Proof.
  intros Hdata Hl Hrect. unfold handle_missing_values. step_M.
  rewrite Hdata, String.eqb_refl, Hl.
  exists (fresh (dom (heap w))), (DataFrame_dropna df). split; [|split; [|split; [|split; [|split]]]].
  - pose proof (dropna_len df Hrect) as Hlen.
    replace (Z.of_nat (len df) - Z.of_nat (len (DataFrame_dropna df)))%Z
      with (Z.of_nat (rows_with_missing df)) by lia.
    reflexivity.
  - intros E. pose proof (fresh_not_allocated (heap w)) as Hf.
    rewrite E, Hl in Hf. discriminate.
  - apply mask_column_dtypes.
  - apply dropna_rows, Hrect.
  - apply dropna_total_missing.
  - apply mask_rectangular, Hrect.
Qed.

Lemma handle_missing_values_drop_result_witness :
  exists l' cleaned,
    handle_missing_values "drop" loaded (world_of ratings_table)
    = (Ok (Some l'), loaded,
       {| heap := <[l' := cleaned]> (heap (world_of ratings_table));
          stdout := [MsgDropped (Z.of_nat (rows_with_missing ratings_table))] |}) /\
    l' <> 0 /\
    column_dtypes cleaned = column_dtypes ratings_table /\
    rows cleaned = List.filter (fun r => negb (row_has_missing r)) (rows ratings_table) /\
    total_missing cleaned = 0 /\
    rectangular cleaned.
Proof.
  apply (handle_missing_values_drop_result loaded (world_of ratings_table) 0 ratings_table).
  - reflexivity.
  - reflexivity.
  - exact ratings_table_rectangular.
Defined.

(** On a loaded table without missing entries, ['drop'] removes nothing:
    it returns a new object with the contents of the stored table and
    reports 0 rows dropped. *)
Theorem handle_missing_values_drop_complete
    (self : Loader) (w : World) (l : loc) (df : DataFrame) :
  data self = Some l ->
  heap w !! l = Some df ->
  rectangular df ->
  total_missing df = 0 ->
  exists l',
    handle_missing_values "drop" self w
    = (Ok (Some l'), self,
       {| heap := <[l' := df]> (heap w); stdout := (stdout w ++ [MsgDropped 0])%list |}) /\
    l' <> l.
Proof.
  intros Hdata Hl Hrect Hmiss. unfold handle_missing_values. step_M.
  rewrite Hdata, String.eqb_refl, Hl.
  assert (Hid : DataFrame_dropna df = df).
  { unfold DataFrame_dropna. rewrite complete_rows_all by assumption.
    apply mask_all_id, Hrect. }
  rewrite Hid, Z.sub_diag.
  eexists. split; [reflexivity|].
  intros E. pose proof (fresh_not_allocated (heap w)) as Hf.
  rewrite E, Hl in Hf. discriminate.
Qed.

Lemma genre_table_rectangular : rectangular genre_table.
Proof. unfold rectangular, genre_table. repeat constructor. Qed.

Lemma handle_missing_values_drop_complete_witness :
  exists l',
    handle_missing_values "drop" loaded (world_of sessions_table)
    = (Ok (Some l'), loaded,
       {| heap := <[l' := sessions_table]> (heap (world_of sessions_table));
          stdout := [MsgDropped 0] |}) /\
    l' <> 0.
Proof.
  apply (handle_missing_values_drop_complete loaded (world_of sessions_table) 0 sessions_table).
  - reflexivity.
  - reflexivity.
  - unfold rectangular, sessions_table. repeat constructor.
  - reflexivity.
Defined.

Lemma rows_of_fill (v : cell) idx (cols : list (string * list cell)) :
  Forall (fun c => length (snd c) = length idx) cols ->
  rows_of idx (map (fun c => (fst c, map (fill_cell v) (snd c))) cols)
  = map (fill_row v) (rows_of idx cols).
Proof.
  revert cols. induction idx as [|lbl idx IH]; intros cols Hall; [reflexivity|].
  cbn [rows_of map]. rewrite Forall_forall in Hall. f_equal.
  - unfold fill_row. cbn. f_equal. rewrite !map_map.
    apply map_ext_in. intros [n vs] Hin. cbn.
    assert (Hlen : length vs = S (length idx))
      by (apply (Hall (n, vs)); apply list_elem_of_In; exact Hin).
    destruct vs as [|c vs]; [discriminate|]. destruct c; reflexivity.
  - rewrite <- IH.
    + f_equal. rewrite !map_map. apply map_ext. intros [n [|x xs]]; reflexivity.
    + rewrite Forall_forall. intros c Hc.
      apply list_elem_of_fmap in Hc as ([n vs] & -> & Hin). cbn.
      specialize (Hall _ Hin). cbn in Hall. destruct vs; cbn in *; lia.
Qed.

Lemma fillna_rows (v : cell) (df : DataFrame) :
  rectangular df -> rows (DataFrame_fillna v df) = map (fill_row v) (rows df).
Proof.
  intros Hrect. unfold rows, DataFrame_fillna. cbn [df_index df_columns].
  rewrite <- rows_of_fill.
  - f_equal. rewrite !map_map. reflexivity.
  - unfold rectangular, len in Hrect. rewrite Forall_forall in Hrect.
    rewrite Forall_forall. intros c Hc.
    apply list_elem_of_fmap in Hc as (c0 & -> & Hin). cbn. apply (Hrect _ Hin).
Qed.

(** [handle_missing_values('fill')] on a loaded table returns a new table
    with the same rows, labels and column names in which every missing
    entry is the number 0 and every other entry is as it was.  The number
    0 is written whatever the column holds: a missing genre becomes 0, not
    a string. *)
Theorem handle_missing_values_fill_result
    (self : Loader) (w : World) (l : loc) (df : DataFrame) :
  data self = Some l ->
  heap w !! l = Some df ->
  rectangular df ->
  exists l' filled,
    handle_missing_values "fill" self w
    = (Ok (Some l'), self,
       {| heap := <[l' := filled]> (heap w); stdout := (stdout w ++ [MsgFilled])%list |}) /\
    l' <> l /\
    column_names filled = column_names df /\
    rows filled = map (fill_row (Num 0)) (rows df) /\
    rectangular filled.
Proof.
  intros Hdata Hl Hrect. unfold handle_missing_values. step_M. rewrite Hdata.
  change (String.eqb "fill" "drop") with false. rewrite String.eqb_refl, Hl.
  eexists _, _. split; [reflexivity|]. split; [|split; [|split]].
  - intros E. pose proof (fresh_not_allocated (heap w)) as Hf.
    rewrite E, Hl in Hf. discriminate.
  - unfold column_names, DataFrame_fillna. cbn. rewrite map_map. reflexivity.
  - apply fillna_rows, Hrect.
  - unfold rectangular, DataFrame_fillna, len in *. cbn [df_index df_columns].
    rewrite Forall_forall in Hrect. rewrite Forall_forall. intros c Hc.
    apply list_elem_of_fmap in Hc as (c0 & -> & Hin). cbn.
    rewrite length_map. apply (Hrect _ Hin).
Qed.

Lemma handle_missing_values_fill_result_witness :
  exists l' filled,
    handle_missing_values "fill" loaded (world_of ratings_table)
    = (Ok (Some l'), loaded,
       {| heap := <[l' := filled]> (heap (world_of ratings_table));
          stdout := [MsgFilled] |}) /\
    l' <> 0 /\
    column_names filled = column_names ratings_table /\
    rows filled = map (fill_row (Num 0)) (rows ratings_table) /\
    rectangular filled.
Proof.
  apply (handle_missing_values_fill_result loaded (world_of ratings_table) 0 ratings_table).
  - reflexivity.
  - reflexivity.
  - exact ratings_table_rectangular.
Defined.

(** The rows of the four records after ['fill']: the missing genres are
    the number 0. *)
Example ratings_table_filled :
  map (fill_row (Num 0)) (rows ratings_table)
  = [(0, [("user_rating", Num 4); ("content_genre", Str "Drama")]);
     (1, [("user_rating", Num 0); ("content_genre", Num 0)]);
     (2, [("user_rating", Num 5); ("content_genre", Num 0)]);
     (3, [("user_rating", Num 0); ("content_genre", Str "Comedy")])].
Proof. reflexivity. Qed.

(** ** Filtering *)

Lemma cell_eqb_NA (c : cell) : cell_eqb c NA = false.
Proof. destruct c; reflexivity. Qed.

Lemma mask_select_none {A} (vals : list cell) (xs : list A) :
  mask_select (map (fun c => cell_eqb c NA) vals) xs = [].
Proof.
  revert xs. induction vals as [|v vals IH]; intros [|x xs]; cbn; try reflexivity.
  rewrite cell_eqb_NA. apply IH.
Qed.

(** Filtering by a missing value ([NaN], [None]) finds nothing: on an
    existing column [filter_by_column] returns a table without rows, also
    when the column has missing entries, and reports 0 rows. *)
Theorem filter_by_column_missing_value
    (self : Loader) (w : World) (l : loc) (df : DataFrame) (column : string) :
  data self = Some l ->
  heap w !! l = Some df ->
  has_column df column = true ->
  exists l' filtered,
    filter_by_column column NA self w
    = (Ok (Some l'), self,
       {| heap := <[l' := filtered]> (heap w);
          stdout := (stdout w ++ [MsgFiltered 0 column NA])%list |}) /\
    len filtered = 0 /\
    rows filtered = [] /\
    column_names filtered = column_names df.
Proof.
  intros Hdata Hl Hcol. unfold filter_by_column. step_M.
  rewrite Hdata, Hl, Hcol. cbn [negb].
  destruct (proj1 (has_column_find df column) Hcol) as [c Hfind].
  unfold getitem. rewrite Hfind.
  assert (Hidx : df_index (DataFrame_mask df (Series_eq
                   {| s_index := df_index df; s_dtype := col_dtype c;
                      s_values := col_values c |} NA)) = []).
  { unfold DataFrame_mask, Series_eq. cbn. apply mask_select_none. }
  eexists _, _. split; [|split; [|split]].
  - unfold len. rewrite Hidx. reflexivity.
  - unfold len. rewrite Hidx. reflexivity.
  - unfold rows. rewrite Hidx. reflexivity.
  - apply mask_column_names.
Qed.

Lemma filter_by_column_missing_value_witness :
  exists l' filtered,
    filter_by_column "content_genre" NA loaded (world_of ratings_table)
    = (Ok (Some l'), loaded,
       {| heap := <[l' := filtered]> (heap (world_of ratings_table));
          stdout := [MsgFiltered 0 "content_genre" NA] |}) /\
    len filtered = 0 /\
    rows filtered = [] /\
    column_names filtered = column_names ratings_table.
Proof.
  apply (filter_by_column_missing_value loaded (world_of ratings_table) 0 ratings_table
           "content_genre").
  - reflexivity.
  - reflexivity.
  - reflexivity.
Defined.

Lemma map_filter_all {A} (p : A -> bool) (xs : list A) :
  map p (List.filter p xs) = repeat true (length (List.filter p xs)).
Proof.
  induction xs as [|x xs IH]; cbn; [reflexivity|].
  destruct (p x) eqn:E; cbn; [rewrite E, IH; reflexivity|exact IH].
Qed.

(** The table returned by [filter_by_column] keeps the columns and column
    types of the stored table and is well formed; every row of it matches;
    and a loader that holds it returns a table with the same contents
    under the same filter. *)
Theorem filter_by_column_again
    (self : Loader) (w : World) (l : loc) (df : DataFrame) (column : string) (value : cell) :
  data self = Some l ->
  heap w !! l = Some df ->
  rectangular df ->
  has_column df column = true ->
  exists l' filtered w',
    filter_by_column column value self w = (Ok (Some l'), self, w') /\
    heap w' !! l' = Some filtered /\
    l' <> l /\
    column_dtypes filtered = column_dtypes df /\
    rectangular filtered /\
    Forall (fun r => row_matches column value r = true) (rows filtered) /\
    forall again,
      data again = Some l' ->
      exists l'' w'',
        filter_by_column column value again w' = (Ok (Some l''), again, w'') /\
        heap w'' !! l'' = Some filtered.
Proof.
  intros Hdata Hl Hrect Hcol.
  destruct (proj1 (has_column_find df column) Hcol) as [c Hfind].
  set (s := {| s_index := df_index df; s_dtype := col_dtype c; s_values := col_values c |}).
  set (filtered := DataFrame_mask df (Series_eq s value)).
  assert (Hrows : rows filtered = List.filter (row_matches column value) (rows df)).
  { unfold filtered. rewrite rows_mask. unfold Series_eq, s. cbn [s_values].
    rewrite (eq_mask_rows df column c value Hrect Hfind). apply mask_select_map. }
  assert (Hrect' : rectangular filtered) by (apply mask_rectangular, Hrect).
  assert (Hfind' : find_column filtered column = Some (Column_mask (Series_eq s value) c)).
  { unfold filtered. rewrite find_column_mask, Hfind. reflexivity. }
  assert (Hagain : DataFrame_mask filtered (Series_eq
                     {| s_index := df_index filtered;
                        s_dtype := col_dtype (Column_mask (Series_eq s value) c);
                        s_values := col_values (Column_mask (Series_eq s value) c) |} value)
                   = filtered).
  { unfold Series_eq at 1. cbn [s_values Column_mask col_values].
    unfold Series_eq, s. cbn [s_values].
    rewrite mask_select_map, map_filter_all.
    replace (length (List.filter (fun c0 => cell_eqb c0 value) (col_values c)))
      with (len filtered); [apply mask_all_id, Hrect'|].
    rewrite <- (rectangular_column filtered column _ Hrect' Hfind').
    cbn. unfold Series_eq, s. cbn. rewrite mask_select_map. reflexivity. }
  exists (fresh (dom (heap w))), filtered. eexists. split; [|split; [|split; [|split; [|split; [|split]]]]].
  - unfold filter_by_column. step_M. rewrite Hdata, Hl, Hcol. cbn [negb].
    unfold getitem. rewrite Hfind. reflexivity.
  - cbn. apply lookup_insert_eq.
  - intros E. pose proof (fresh_not_allocated (heap w)) as Hf.
    rewrite E, Hl in Hf. discriminate.
  - apply mask_column_dtypes.
  - exact Hrect'.
  - rewrite Hrows. rewrite Forall_forall. intros r Hr.
    apply list_elem_of_In, filter_In in Hr. apply Hr.
  - intros again Hdata'. unfold filter_by_column. step_M.
    assert (Hcol' : has_column filtered column = true)
      by (unfold filtered; rewrite has_column_mask; exact Hcol).
    rewrite Hdata'. cbn [heap]. fold s. fold filtered.
    rewrite lookup_insert_eq, Hcol'. cbn [negb].
    unfold getitem. rewrite Hfind', Hagain.
    eexists _, _. split; [reflexivity|]. cbn. apply lookup_insert_eq.
Qed.

Lemma filter_by_column_again_witness :
  exists l' filtered w',
    filter_by_column "content_genre" (Str "Drama") loaded (world_of ratings_table)
    = (Ok (Some l'), loaded, w') /\
    heap w' !! l' = Some filtered /\
    l' <> 0 /\
    column_dtypes filtered = column_dtypes ratings_table /\
    rectangular filtered /\
    Forall (fun r => row_matches "content_genre" (Str "Drama") r = true) (rows filtered) /\
    forall again,
      data again = Some l' ->
      exists l'' w'',
        filter_by_column "content_genre" (Str "Drama") again w' = (Ok (Some l''), again, w'') /\
        heap w'' !! l'' = Some filtered.
Proof.
  apply (filter_by_column_again loaded (world_of ratings_table) 0 ratings_table
           "content_genre" (Str "Drama")).
  - reflexivity.
  - reflexivity.
  - exact ratings_table_rectangular.
  - reflexivity.
Defined.

(** ** Loading twice *)

(** A failed load does not discard what was loaded before: after a file
    that parses and then a file that is missing or unreadable, the loader
    still refers to the first table, and [get_basic_info] describes it. *)
Theorem failed_load_keeps_table
    (read_csv : string -> csv_outcome) (f g : string) (self : Loader) (w : World)
    (df : DataFrame) :
  read_csv (path_join (data_path self) f) = CsvFrame df ->
  (forall df', read_csv (path_join (data_path self) g) <> CsvFrame df') ->
  exists l w2,
    run read_csv [LoadCsv f; LoadCsv g] self w
    = ({| data_path := data_path self; data := Some l |}, w2) /\
    heap w !! l = None /\
    heap w2 !! l = Some df /\
    fst (fst (get_basic_info {| data_path := data_path self; data := Some l |} w2))
    = Ok (Some {| info_rows := len df;
                  info_columns := length (df_columns df);
                  info_column_names := column_names df;
                  info_missing_values := missing_values df;
                  info_dtypes := column_dtypes df |}).
Proof.
  intros Hf Hg.
  pose proof (load_csv_cases read_csv f self w) as H1. rewrite Hf in H1.
  destruct H1 as (l & Hfresh & H1).
  set (self1 := {| data_path := data_path self; data := Some l |}) in *.
  set (w1 := {| heap := <[l := df]> (heap w);
                stdout := (stdout w ++ [MsgLoaded f;
                                        MsgShape (len df) (length (df_columns df))])%list |}) in *.
  pose proof (load_csv_cases read_csv g self1 w1) as H2.
  assert (H2' : exists out, load_csv read_csv g self1 w1
                            = (Ok None, self1, {| heap := heap w1; stdout := out |})).
  { cbn [data_path self1] in H2.
    destruct (read_csv (path_join (data_path self) g)) eqn:E.
    - exfalso. apply (Hg df0). reflexivity.
    - eexists. exact H2.
    - eexists. exact H2. }
  destruct H2' as [out H2'].
  exists l. eexists. split; [|split; [|split]].
  - cbn [run exec]. unfold mbind, M_bind. rewrite H1. cbn [mret M_ret].
    rewrite H2'. reflexivity.
  - exact Hfresh.
  - cbn. apply lookup_insert_eq.
  - unfold get_basic_info. step_M. cbn [data self1 heap w1].
    rewrite lookup_insert_eq. reflexivity.
Qed.

Lemma failed_load_keeps_table_witness :
  exists l w2,
    run one_file [LoadCsv "ratings.csv"; LoadCsv "views.csv"] (__init__ "./data")
      {| heap := ∅; stdout := [] |}
    = ({| data_path := "./data"; data := Some l |}, w2) /\
    (∅ : gmap loc DataFrame) !! l = None /\
    heap w2 !! l = Some ratings_table /\
    fst (fst (get_basic_info {| data_path := "./data"; data := Some l |} w2))
    = Ok (Some {| info_rows := 4;
                  info_columns := 2;
                  info_column_names := ["user_rating"; "content_genre"];
                  info_missing_values := [("user_rating", 2); ("content_genre", 2)];
                  info_dtypes := [("user_rating", Float64); ("content_genre", ObjectT)] |}).
Proof.
  apply (failed_load_keeps_table one_file "ratings.csv" "views.csv" (__init__ "./data")
           {| heap := ∅; stdout := [] |} ratings_table).
  - reflexivity.
  - intros df'. discriminate.
Defined.

End LoaderCalls.

(** * Further properties of [NetflixExploratoryAnalysis] *)

Section AnalyzerCalls.

Import NetflixExploratoryAnalysis.

(** ** The guards of [detect_outliers] *)

(** On an analyzer just built, [detect_outliers] on a name that is not a
    number-typed column of the table (a categorical column, a boolean
    column, a name the table does not have) reports that the column is
    not numerical and returns the empty list and the empty dictionary,
    whatever the method is. *)
Theorem detect_outliers_not_numerical
    (w : World) (r : loc) (df : DataFrame) (column method : string) :
  heap w !! r = Some df ->
  (forall c, In (column, c) (df_columns df) -> is_number (col_dtype c) = false) ->
  exists an w1,
    __init__ r tt w = (Ok an, tt, w1) /\
    detect_outliers column method an w1
    = (Ok ([], ∅), an,
       {| heap := heap w1; stdout := (stdout w1 ++ [MsgNotNumerical column])%list |}).
Proof.
  intros Hr Hcol. eexists _, _. split; [apply init_spec; exact Hr|].
  unfold detect_outliers. step_M. cbn [numerical_cols].
  destruct (existsb (String.eqb column) (select_dtypes is_number df)) eqn:E; [|reflexivity].
  exfalso. apply existsb_exists in E as (n & Hin & Hn).
  apply String.eqb_eq in Hn. subst n.
  apply in_select_dtypes in Hin as (c & Hc & Hnum).
  rewrite (Hcol c Hc) in Hnum. discriminate.
Qed.

Lemma detect_outliers_not_numerical_witness :
  exists an w1,
    __init__ 0 tt (world_of outlier_table) = (Ok an, tt, w1) /\
    detect_outliers "content_genre" "median" an w1
    = (Ok ([], ∅), an,
       {| heap := heap w1; stdout := (stdout w1 ++ [MsgNotNumerical "content_genre"])%list |}).
Proof.
  apply (detect_outliers_not_numerical (world_of outlier_table) 0 outlier_table
           "content_genre" "median").
  - reflexivity.
  - intros c [H|[H|[H|[]]]]; inversion H; reflexivity.
Defined.

Lemma filter_notna_all_missing (vals : list cell) :
  forallb isna vals = true -> List.filter notna vals = [].
Proof.
  induction vals as [|x xs IH]; cbn; [reflexivity|].
  intros H. apply andb_prop in H as [Hx H]. unfold notna. rewrite Hx. cbn. apply IH, H.
Qed.

Lemma mask_select_all_missing {A} (vals : list cell) (xs : list A) :
  forallb isna vals = true -> mask_select (map notna vals) xs = [].
Proof.
  revert xs. induction vals as [|v vals IH]; intros [|x xs] H; cbn in *; try reflexivity.
  apply andb_prop in H as [Hv H]. unfold notna. rewrite Hv. cbn. apply IH, H.
Qed.

(** On a numerical column without any value (every entry missing, or a
    table without rows), [detect_outliers] raises [ZeroDivisionError] for
    both methods: the percentage divides by the number of values.  The
    call prints nothing before. *)
Theorem detect_outliers_no_values
    (self : Analyzer) (w : World) (df : DataFrame) (column method : string) (c : Column) :
  existsb (String.eqb column) (numerical_cols self) = true ->
  heap w !! data self = Some df ->
  find_column df column = Some c ->
  forallb isna (col_values c) = true ->
  method = "iqr" \/ method = "zscore" ->
  detect_outliers column method self w = (Raise ZeroDivisionError, self, w).
Proof.
  intros Hnum Hdf Hc Hmiss Hmethod.
  unfold detect_outliers. step_M. rewrite Hnum. cbn [negb]. rewrite Hdf.
  unfold getitem. rewrite Hc. unfold outlier_branches, Series_dropna. cbn [s_values s_index].
  rewrite !(mask_select_all_missing _ _ Hmiss).
  destruct w as [h out]. destruct Hmethod as [-> | ->]; reflexivity.
Qed.

Lemma detect_outliers_no_values_witness :
  detect_outliers "user_rating" "zscore" blank_analyzer blank_world
  = (Raise ZeroDivisionError, blank_analyzer, blank_world).
Proof.
  apply (detect_outliers_no_values blank_analyzer blank_world blank_table
           "user_rating" "zscore"
           {| col_dtype := Float64; col_values := [NA; NA] |}).
  - reflexivity.
  - reflexivity.
  - reflexivity.
  - reflexivity.
  - right. reflexivity.
Defined.

(** ** [categorical_analysis] *)

Lemma profile_of_none (s : Series) :
  existsb notna (s_values s) = false -> profile_of s = None.
Proof.
  intros H. unfold profile_of, value_counts, Series_dropna. cbn [s_values].
  rewrite mask_select_map.
  assert (Hnil : List.filter notna (s_values s) = []).
  { induction (s_values s) as [|x xs IH]; cbn in *; [reflexivity|].
    apply orb_false_elim in H as [Hx H]. rewrite Hx. apply IH, H. }
  rewrite Hnil. reflexivity.
Qed.

(** The loop raises [IndexError] at the first listed column without a
    value; it has changed no object by then. *)
Lemma categorical_loop_raises (df : DataFrame) (self : Analyzer) (cols : list string) :
  (forall n, In n cols -> exists s, getitem df n = Ok s) ->
  (exists n s, In n cols /\ getitem df n = Ok s /\ profile_of s = None) ->
  forall acc w,
    heap w !! data self = Some df ->
    fst (fst (categorical_loop cols acc self w)) = Raise IndexError /\
    snd (fst (categorical_loop cols acc self w)) = self /\
    heap (snd (categorical_loop cols acc self w)) = heap w.
Proof.
  induction cols as [|col cols IH]; intros Hall (n & s & Hin & Hs & Hp) acc w Hdf.
  - destruct Hin.
  - destruct (Hall col (or_introl eq_refl)) as [s0 Hs0].
    cbn [categorical_loop]. step_M. rewrite Hdf, Hs0. cbn zeta.
    destruct (value_counts s0) as [|[v k] vc] eqn:Evc; [cbn; auto|].
    assert (Hin' : In n cols).
    { destruct Hin as [<-|Hin]; [|exact Hin].
      rewrite Hs in Hs0. inversion Hs0; subst s0.
      unfold profile_of in Hp. rewrite Evc in Hp. discriminate. }
    match goal with
    | |- context [categorical_loop cols ?acc' self ?w'] =>
        destruct (IH (fun m Hm => Hall m (or_intror Hm))
                     (ex_intro _ n (ex_intro _ s (conj Hin' (conj Hs Hp))))
                     acc' w' Hdf) as (H1 & H2 & H3)
    end.
    split; [exact H1|]. split; [exact H2|exact H3].
Qed.

Lemma categorical_have_values_false (df : DataFrame) :
  categorical_have_values df = false ->
  exists n c, In (n, c) (df_columns df) /\ col_dtype c = ObjectT /\
              existsb notna (col_values c) = false.
Proof.
  unfold categorical_have_values. induction (df_columns df) as [|[n c] cols IH]; cbn.
  - discriminate.
  - intros H. apply andb_false_iff in H as [H|H].
    + apply orb_false_elim in H as [Ht Hv]. exists n, c. split; [left; reflexivity|].
      split; [|exact Hv]. destruct (col_dtype c); try discriminate; reflexivity.
    + destruct (IH H) as (n' & c' & Hin & Ht & Hv). exists n', c'. auto.
Qed.

Lemma categorical_have_values_true (df : DataFrame) (n : string) (c : Column) :
  categorical_have_values df = true ->
  In (n, c) (df_columns df) -> col_dtype c = ObjectT ->
  existsb notna (col_values c) = true.
Proof.
  unfold categorical_have_values. rewrite forallb_forall. intros H Hin Ht.
  specialize (H _ Hin). cbn in H. rewrite Ht in H. exact H.
Qed.

Lemma categorical_cols_getitem (df : DataFrame) (n : string) :
  NoDup (column_names df) ->
  In n (select_dtypes is_object df) ->
  exists c, In (n, c) (df_columns df) /\ col_dtype c = ObjectT /\
            getitem df n = Ok {| s_index := df_index df; s_dtype := col_dtype c;
                                 s_values := col_values c |}.
Proof.
  intros Hnd Hn. apply in_select_dtypes in Hn as (c & Hin & Ht).
  exists c. split; [exact Hin|]. split.
  - destruct (col_dtype c); try discriminate; reflexivity.
  - unfold getitem. rewrite (NoDup_find_column df n c Hnd Hin). reflexivity.
Qed.

(** [categorical_analysis] on an analyzer just built: the two outcomes. *)
Lemma categorical_analysis_result (w : World) (r : loc) (df : DataFrame) :
  heap w !! r = Some df ->
  NoDup (column_names df) ->
  exists an w1,
    __init__ r tt w = (Ok an, tt, w1) /\
    ((categorical_have_values df = true /\
      exists results w2,
        categorical_analysis an w1 = (Ok results, an, w2) /\
        heap w2 = heap w1 /\
        (forall n, is_Some (results !! n) <-> In n (categorical_cols an)) /\
        (forall n p, results !! n = Some p ->
                     exists c, find_column df n = Some c /\ col_dtype c = ObjectT /\
                               profile_of {| s_index := df_index df; s_dtype := col_dtype c;
                                             s_values := col_values c |} = Some p)) \/
     (categorical_have_values df = false /\
      exists w2,
        categorical_analysis an w1 = (Raise IndexError, an, w2) /\
        heap w2 = heap w1)).
Proof.
  intros Hr Hnd. rewrite (init_spec w r df Hr).
  set (an := {| data := fresh (dom (heap w));
                numerical_cols := select_dtypes is_number df;
                categorical_cols := select_dtypes is_object df |}).
  set (w1 := {| heap := <[fresh (dom (heap w)) := df]> (heap w); stdout := stdout w |}).
  exists an, w1. split; [reflexivity|].
  assert (Hw1 : heap {| heap := heap w1;
                        stdout := (stdout w1 ++ [MsgAnalyzingCategorical])%list |} !! data an
                = Some df) by apply lookup_insert_eq.
  destruct (categorical_have_values df) eqn:Hok; [left|right]; (split; [reflexivity|]).
  - assert (Hall : forall n, In n (categorical_cols an) ->
                             exists s p, getitem df n = Ok s /\ profile_of s = Some p).
    { intros n Hn. destruct (categorical_cols_getitem df n Hnd Hn) as (c & Hin & Ht & Hg).
      destruct (profile_of_some {| s_index := df_index df; s_dtype := col_dtype c;
                                   s_values := col_values c |}) as [p Hp].
      - apply (categorical_have_values_true df n c Hok Hin Ht).
      - eauto. }
    destruct (categorical_loop_spec df an (categorical_cols an) Hall ∅ _ Hw1)
      as (res & w2 & Hrun & Hheap & Hin & Hout).
    assert (Hkeys : forall n, is_Some (res !! n) -> In n (categorical_cols an)).
    { intros n Hsome.
      destruct (in_dec String.string_dec n (categorical_cols an)) as [H|H]; [exact H|].
      rewrite (Hout n H), lookup_empty in Hsome. destruct Hsome as [x Hx]. discriminate. }
    exists res, w2. split; [|split; [|split]].
    + unfold categorical_analysis. step_M. exact Hrun.
    + exact Hheap.
    + intros n. split; [apply Hkeys|].
      intros Hn. destruct (Hall n Hn) as (s & p & Hs & Hp).
      rewrite (Hin n s p Hn Hs Hp). eauto.
    + intros n p Hp.
      assert (Hn : In n (categorical_cols an)) by (apply Hkeys; eauto).
      destruct (categorical_cols_getitem df n Hnd Hn) as (c & Hc & Ht & Hg).
      exists c. split; [apply NoDup_find_column; assumption|]. split; [exact Ht|].
      destruct (Hall n Hn) as (s' & p' & Hs' & Hp').
      rewrite (Hin n s' p' Hn Hs' Hp') in Hp. inversion Hp; subst p'.
      rewrite Hg in Hs'. inversion Hs'; subst s'. exact Hp'.
  - destruct (categorical_have_values_false df Hok) as (n & c & Hin & Ht & Hv).
    assert (Hn : In n (categorical_cols an)).
    { apply in_select_dtypes. exists c. split; [exact Hin|]. rewrite Ht. reflexivity. }
    destruct (categorical_loop_raises df an (categorical_cols an)) with
      (acc := (∅ : gmap string Profile))
      (w := {| heap := heap w1; stdout := (stdout w1 ++ [MsgAnalyzingCategorical])%list |})
      as (Hres & Hself & Hheap).
    + intros m Hm. destruct (categorical_cols_getitem df m Hnd Hm) as (c' & _ & _ & Hg). eauto.
    + destruct (categorical_cols_getitem df n Hnd Hn) as (c' & Hin' & _ & Hg).
      eexists n, _. split; [exact Hn|]. split; [exact Hg|].
      apply profile_of_none. cbn [s_values].
      pose proof (NoDup_find_column df n c Hnd Hin) as F1.
      pose proof (NoDup_find_column df n c' Hnd Hin') as F2.
      rewrite F1 in F2. inversion F2; subst c'. exact Hv.
    + exact Hw1.
    + unfold categorical_analysis. step_M.
      destruct (categorical_loop _ _ _ _) as [[res self'] w2].
      cbn [fst snd] in *. subst. exists w2. split; [reflexivity|exact Hheap].
Qed.

(** On an analyzer just built on a table with distinct column names,
    [categorical_analysis] returns exactly when every categorical column
    has at least one value; its result then has one entry per categorical
    column and no other.  Otherwise it raises [IndexError] (the most
    common value of nothing), and the analyzer's table is untouched. *)
Theorem categorical_analysis_returns_iff (w : World) (r : loc) (df : DataFrame) :
  heap w !! r = Some df ->
  NoDup (column_names df) ->
  exists an w1,
    __init__ r tt w = (Ok an, tt, w1) /\
    if categorical_have_values df then
      exists results w2,
        categorical_analysis an w1 = (Ok results, an, w2) /\
        heap w2 = heap w1 /\
        forall n, is_Some (results !! n) <-> In n (categorical_cols an)
    else
      exists w2,
        categorical_analysis an w1 = (Raise IndexError, an, w2) /\
        heap w2 = heap w1.
Proof.
  intros Hr Hnd.
  destruct (categorical_analysis_result w r df Hr Hnd) as (an & w1 & Hinit & Hcases).
  exists an, w1. split; [exact Hinit|].
  destruct Hcases as [(Hok & res & w2 & Hrun & Hheap & Hkeys & _)|(Hok & w2 & Hrun & Hheap)];
    rewrite Hok; eauto.
Qed.

Lemma categorical_analysis_returns_iff_witness :
  exists an w1,
    __init__ 0 tt (world_of blank_table) = (Ok an, tt, w1) /\
    exists w2,
      categorical_analysis an w1 = (Raise IndexError, an, w2) /\
      heap w2 = heap w1.
Proof.
  apply (categorical_analysis_returns_iff (world_of blank_table) 0 blank_table).
  - reflexivity.
  - apply NoDup_names_2. discriminate.
Defined.

(** ** Value counts *)

Lemma bump_sum (x : cell) (acc : list (cell * nat)) :
  list_sum (map snd (bump x acc)) = S (list_sum (map snd acc)).
Proof.
  unfold list_sum. induction acc as [|[k n] acc IH]; cbn; [reflexivity|].
  destruct (cell_eqb k x); cbn; [reflexivity|]. rewrite IH. lia.
Qed.

Lemma bump_keys (x : cell) (acc : list (cell * nat)) (k : cell) :
  In k (map fst (bump x acc)) -> k = x \/ In k (map fst acc).
Proof.
  induction acc as [|[k0 n] acc IH]; cbn.
  - intros [H|[]]. left. congruence.
  - destruct (cell_eqb k0 x); cbn; intros [H|H]; auto.
    destruct (IH H); auto.
Qed.

Lemma bump_positive (x : cell) (acc : list (cell * nat)) :
  Forall (fun kn => 1 <= snd kn) acc -> Forall (fun kn => 1 <= snd kn) (bump x acc).
Proof.
  induction 1 as [|[k n] acc Hn Hacc IH]; cbn.
  - repeat constructor.
  - destruct (cell_eqb k x); constructor; cbn in *; auto; lia.
Qed.

Lemma fold_bump_sum (cs : list cell) (acc : list (cell * nat)) :
  list_sum (map snd (fold_left (fun acc x => bump x acc) cs acc))
  = length cs + list_sum (map snd acc).
Proof.
  revert acc. induction cs as [|c cs IH]; intros acc; cbn [fold_left length]; [reflexivity|].
  rewrite IH, bump_sum. lia.
Qed.

Lemma fold_bump_keys (cs : list cell) (acc : list (cell * nat)) (k : cell) :
  In k (map fst (fold_left (fun acc x => bump x acc) cs acc)) ->
  In k cs \/ In k (map fst acc).
Proof.
  revert acc. induction cs as [|c cs IH]; intros acc; cbn; [auto|].
  intros H. destruct (IH _ H) as [H'|H']; [auto|].
  destruct (bump_keys _ _ _ H'); auto.
Qed.

Lemma fold_bump_positive (cs : list cell) (acc : list (cell * nat)) :
  Forall (fun kn => 1 <= snd kn) acc ->
  Forall (fun kn => 1 <= snd kn) (fold_left (fun acc x => bump x acc) cs acc).
Proof.
  revert acc. induction cs as [|c cs IH]; intros acc H; cbn; [exact H|].
  apply IH, bump_positive, H.
Qed.

Lemma insert_by_count_perm x l : Permutation (insert_by_count x l) (x :: l).
Proof.
  induction l as [|y l IH]; cbn; [reflexivity|].
  destruct (Nat.leb (snd y) (snd x)); [reflexivity|].
  rewrite IH. apply perm_swap.
Qed.

Lemma sort_by_count_perm l : Permutation (fold_right insert_by_count [] l) l.
Proof.
  induction l as [|x l IH]; cbn; [reflexivity|].
  rewrite insert_by_count_perm. apply perm_skip, IH.
Qed.

Lemma insert_by_count_descending x l :
  descending l -> descending (insert_by_count x l).
Proof.
  unfold descending. induction 1 as [|y l Hl IH Hy]; cbn.
  - repeat constructor.
  - destruct (Nat.leb (snd y) (snd x)) eqn:E.
    + apply Nat.leb_le in E. constructor; [constructor; assumption|].
      constructor; [exact E|].
      eapply Forall_impl; [exact Hy|]. cbn. intros z Hz. lia.
    + apply Nat.leb_gt in E. constructor; [exact IH|].
      eapply Permutation_Forall; [symmetry; apply insert_by_count_perm|].
      constructor; [lia|exact Hy].
Qed.

Lemma sort_by_count_descending l : descending (fold_right insert_by_count [] l).
Proof.
  induction l as [|x l IH]; cbn; [constructor|].
  apply insert_by_count_descending, IH.
Qed.

(** What [value_counts] returns: the counts are in descending order, each
    is at least 1, they add up to the number of values of the series, and
    every value counted is a value of the series. *)
Lemma value_counts_spec (s : Series) :
  descending (value_counts s) /\
  Forall (fun kn => 1 <= snd kn) (value_counts s) /\
  list_sum (map snd (value_counts s)) = length (List.filter notna (s_values s)) /\
  length (value_counts s) = nunique s /\
  forall k, In k (map fst (value_counts s)) -> In k (s_values s) /\ isna k = false.
Proof.
  unfold value_counts, nunique, tally, Series_dropna. cbn [s_values].
  rewrite mask_select_map.
  set (vals := List.filter notna (s_values s)).
  set (t := fold_left (fun acc x => bump x acc) vals []).
  assert (Hp : Permutation (fold_right insert_by_count [] t) t) by apply sort_by_count_perm.
  split; [apply sort_by_count_descending|]. split; [|split; [|split]].
  - eapply Permutation_Forall; [symmetry; exact Hp|].
    apply fold_bump_positive. constructor.
  - rewrite (Permutation_list_sum (Permutation_map snd Hp)).
    unfold t. rewrite fold_bump_sum. cbn. lia.
  - apply Permutation_length, Hp.
  - intros k Hk.
    assert (Hk' : In k (map fst t))
      by (eapply Permutation_in; [apply Permutation_map; exact Hp|exact Hk]).
    destruct (fold_bump_keys _ _ _ Hk') as [H|[]].
    unfold vals in H. apply filter_In in H as [Hin Hna].
    split; [exact Hin|]. unfold notna in Hna. destruct (isna k); [discriminate|reflexivity].
Qed.

(** Every entry that [categorical_analysis] returns belongs to a
    categorical column of the table and is coherent with it: the number
    of unique values is the length of the distribution; the counts add up
    to the number of values of the column; no count exceeds that of the
    most common value, which is at least 1; and the most common value is a
    value of the column. *)
Theorem categorical_analysis_profiles
    (w w1 w2 : World) (r : loc) (df : DataFrame) (an an' : Analyzer)
    (results : gmap string Profile) (n : string) (p : Profile) :
  heap w !! r = Some df ->
  NoDup (column_names df) ->
  __init__ r tt w = (Ok an, tt, w1) ->
  categorical_analysis an w1 = (Ok results, an', w2) ->
  results !! n = Some p ->
  exists c,
    find_column df n = Some c /\
    col_dtype c = ObjectT /\
    unique_values p = length (distribution p) /\
    list_sum (map snd (distribution p)) = length (List.filter notna (col_values c)) /\
    Forall (fun kn => snd kn <= most_common_count p) (distribution p) /\
    1 <= most_common_count p /\
    In (most_common p) (col_values c) /\
    isna (most_common p) = false.
Proof.
  intros Hr Hnd Hinit Hrun Hn.
  destruct (categorical_analysis_result w r df Hr Hnd) as (an0 & w0 & Hinit0 & Hchar).
  rewrite Hinit in Hinit0. inversion Hinit0; subst an0 w0. clear Hinit0.
  destruct Hchar as [(_ & res & w2' & Hrun' & _ & _ & Hprof)|(_ & w2' & Hrun' & _)];
    [|rewrite Hrun in Hrun'; discriminate].
  rewrite Hrun in Hrun'. inversion Hrun'; subst res w2'. clear Hrun'.
  destruct (Hprof n p Hn) as (c & Hc & Ht & Hp).
  exists c. split; [exact Hc|]. split; [exact Ht|].
  set (s := {| s_index := df_index df; s_dtype := col_dtype c; s_values := col_values c |}) in *.
  destruct (value_counts_spec s) as (Hdesc & Hpos & Hsum & Hlen & Hin).
  unfold profile_of in Hp.
  destruct (value_counts s) as [|[v k] vc] eqn:Evc; [discriminate|].
  inversion Hp; subst p. cbn [unique_values distribution most_common most_common_count].
  split; [symmetry; exact Hlen|]. split; [exact Hsum|].
  inversion Hdesc as [|x l Hl Hx]; subst.
  inversion Hpos as [|x l Hk Hrest]; subst. cbn in Hk.
  split; [constructor; [cbn; lia|exact Hx]|]. split; [exact Hk|].
  apply (Hin v). left. reflexivity.
Qed.

Lemma categorical_analysis_profiles_witness :
  exists c,
    find_column genre_table "content_genre" = Some c /\
    col_dtype c = ObjectT /\
    unique_values genre_profile = length (distribution genre_profile) /\
    list_sum (map snd (distribution genre_profile))
    = length (List.filter notna (col_values c)) /\
    Forall (fun kn => snd kn <= most_common_count genre_profile)
           (distribution genre_profile) /\
    1 <= most_common_count genre_profile /\
    In (most_common genre_profile) (col_values c) /\
    isna (most_common genre_profile) = false.
Proof.
  apply (categorical_analysis_profiles (world_of genre_table) genre_world genre_world_after
           0 genre_table genre_analyzer genre_analyzer genre_results "content_genre"
           genre_profile).
  - reflexivity.
  - apply NoDup_names_2. discriminate.
  - vm_compute. reflexivity.
  - vm_compute. reflexivity.
  - vm_compute. reflexivity.
Defined.

(** ** Grouping by day *)

Lemma insert_date_In (d x : Z) (l : list Z) :
  In x (insert_date d l) <-> x = d \/ In x l.
Proof.
  induction l as [|e l IH]; cbn; [intuition|].
  destruct (Z.eqb_spec d e) as [->|Hne]; [cbn; intuition|].
  destruct (d <? e)%Z; cbn; [intuition|]. rewrite IH. intuition.
Qed.

Lemma insert_date_sorted (d : Z) (l : list Z) :
  StronglySorted Z.lt l -> StronglySorted Z.lt (insert_date d l).
Proof.
  induction 1 as [|e l Hl IH He]; cbn; [repeat constructor|].
  destruct (Z.eqb_spec d e) as [->|Hne]; [constructor; assumption|].
  destruct (Z.ltb_spec d e) as [Hlt|Hge].
  - constructor; [constructor; assumption|].
    constructor; [exact Hlt|]. eapply Forall_impl; [exact He|]. cbn. lia.
  - constructor; [exact IH|]. rewrite List.Forall_forall. intros x Hx.
    apply insert_date_In in Hx as [->|Hx]; [lia|].
    rewrite List.Forall_forall in He. apply He, Hx.
Qed.

Lemma group_keys_sorted (ks : list (option Z)) : StronglySorted Z.lt (group_keys ks).
Proof.
  unfold group_keys. induction ks as [|[d|] ks IH]; cbn; [constructor| |exact IH].
  apply insert_date_sorted, IH.
Qed.

Lemma group_keys_In (ks : list (option Z)) (d : Z) :
  In d (group_keys ks) <-> In (Some d) ks.
Proof.
  unfold group_keys. induction ks as [|[e|] ks IH]; cbn; [tauto| |].
  - rewrite insert_date_In, IH. split; intros [H|H]; auto; left; congruence.
  - rewrite IH. split; [auto|]. intros [H|H]; [discriminate|exact H].
Qed.

Lemma sorted_lt_NoDup (l : list Z) : StronglySorted Z.lt l -> List.NoDup l.
Proof.
  induction 1 as [|x l Hl IH Hx]; constructor; [|exact IH].
  intros Hin. rewrite List.Forall_forall in Hx. specialize (Hx x Hin). lia.
Qed.

Lemma agg_numbers_length (cs : list cell) (qs : list Q) :
  agg_numbers cs = Ok qs -> length qs = length cs.
Proof.
  revert qs. induction cs as [|c cs IH]; intros qs H; cbn in H.
  - inversion H. reflexivity.
  - destruct (agg_number c); [|discriminate].
    destruct (agg_numbers cs) as [qs'|]; [|discriminate].
    inversion H. cbn. rewrite (IH qs' eq_refl). reflexivity.
Qed.

Lemma agg_groups_rows (ds : list Z) (ks : list (option Z)) (vs : list cell) (rows : list TsRow) :
  agg_groups ds ks vs = Ok rows ->
  map date rows = ds /\
  map count rows
  = map (fun d => length (List.filter notna (mask_select (map (in_group d) ks) vs))) ds.
Proof.
  revert rows. induction ds as [|d ds IH]; intros rows H; cbn in H.
  - inversion H. split; reflexivity.
  - unfold agg_group in H.
    destruct (agg_numbers (List.filter notna (mask_select (map (in_group d) ks) vs)))
      as [qs|] eqn:Eq; [|discriminate].
    destruct (agg_groups ds ks vs) as [rs|]; [|discriminate].
    inversion H; subst rows. destruct (IH rs eq_refl) as [Hd Hc]. cbn.
    rewrite Hd, Hc, (agg_numbers_length _ _ Eq). split; reflexivity.
Qed.

Lemma list_sum_map_add {A} (f g : A -> nat) (l : list A) :
  list_sum (map (fun x => f x + g x) l) = list_sum (map f l) + list_sum (map g l).
Proof. unfold list_sum. induction l as [|x l IH]; cbn; [reflexivity|]. rewrite IH. lia. Qed.

Lemma list_sum_map_zero {A} (l : list A) : list_sum (map (fun _ => 0) l) = 0.
Proof. unfold list_sum. induction l as [|x l IH]; cbn; [reflexivity|exact IH]. Qed.

Lemma list_sum_indicator (d0 : Z) (ds : list Z) :
  List.NoDup ds -> In d0 ds ->
  list_sum (map (fun d => if (d =? d0)%Z then 1 else 0) ds) = 1.
Proof.
  unfold list_sum. induction 1 as [|d ds Hd Hnd IH]; intros Hin; [destruct Hin|]. cbn.
  destruct (Z.eqb_spec d d0) as [->|Hne].
  - assert (Hz : foldr Init.Nat.add 0 (map (fun d => if (d =? d0)%Z then 1 else 0) ds) = 0).
    { clear IH Hin Hnd. induction ds as [|e ds IHd]; cbn; [reflexivity|].
      destruct (Z.eqb_spec e d0) as [->|_]; [exfalso; apply Hd; left; reflexivity|].
      apply IHd. intros H. apply Hd. right. exact H. }
    rewrite Hz. reflexivity.
  - destruct Hin as [H|H]; [congruence|]. apply IH, H.
Qed.

(** Every row with a date and a value is counted in exactly one group. *)
Lemma group_counts_sum (ds : list Z) (ks : list (option Z)) (vs : list cell) :
  List.NoDup ds ->
  (forall d, In (Some d) ks -> In d ds) ->
  list_sum (map (fun d => length (List.filter notna (mask_select (map (in_group d) ks) vs))) ds)
  = length (List.filter dated_value (combine ks vs)).
Proof.
  intros Hnd. revert vs. induction ks as [|k ks IH]; intros vs Hks.
  - cbn. apply list_sum_map_zero.
  - destruct vs as [|v vs].
    + apply (list_sum_map_zero ds).
    + cbn [combine List.filter].
      rewrite (map_ext _ (fun d => (if in_group d k && notna v then 1 else 0)
                                   + length (List.filter notna
                                               (mask_select (map (in_group d) ks) vs)))).
      2:{ intros d. cbn. destruct (in_group d k); cbn; [|reflexivity].
          destruct (notna v); reflexivity. }
      rewrite list_sum_map_add, IH by (intros d Hd; apply Hks; right; exact Hd).
      change (dated_value (k, v)) with (match k with Some _ => notna v | None => false end).
      destruct k as [d0|]; cbn [in_group].
      * destruct (notna v); cbn.
        -- rewrite (map_ext _ (fun d => if (d =? d0)%Z then 1 else 0))
             by (intros d; rewrite andb_true_r; reflexivity).
           rewrite list_sum_indicator; [reflexivity|exact Hnd|].
           apply Hks. left. reflexivity.
        -- rewrite (map_ext _ (fun _ => 0))
             by (intros d; rewrite andb_false_r; reflexivity).
           rewrite list_sum_map_zero. reflexivity.
      * rewrite list_sum_map_zero. reflexivity.
Qed.

Lemma dt_date_In (s : Series) (day : Z) :
  In (Some day) (dt_date s) <-> exists ns, In (Date ns) (s_values s) /\ date_of ns = day.
Proof.
  unfold dt_date. rewrite in_map_iff. split.
  - intros (c & Hc & Hin). destruct c; try discriminate.
    inversion Hc; subst. eauto.
  - intros (ns & Hin & <-). exists (Date ns). auto.
Qed.

(** ** [time_series_analysis] *)

Section TimeSeries.

Variable parse_datetime : cell -> result Z.

Abbreviation time_series_analysis := (time_series_analysis parse_datetime).
Abbreviation to_datetime := (to_datetime parse_datetime).

Lemma cells_to_datetime_idem (cs ds : list cell) :
  cells_to_datetime parse_datetime cs = Ok ds ->
  cells_to_datetime parse_datetime ds = Ok ds.
Proof.
  revert ds. induction cs as [|c cs IH]; intros ds H; cbn in H.
  - inversion H. reflexivity.
  - destruct (cell_to_datetime parse_datetime c) as [x|] eqn:Ec; [|discriminate].
    destruct (cells_to_datetime parse_datetime cs) as [xs|]; [|discriminate].
    inversion H; subst ds. cbn. rewrite (IH xs eq_refl).
    assert (Hx : cell_to_datetime parse_datetime x = Ok x).
    { unfold cell_to_datetime in Ec. destruct c; inversion Ec; try reflexivity;
        destruct (parse_datetime _); inversion Ec; reflexivity. }
    rewrite Hx. reflexivity.
Qed.

Lemma to_datetime_idem (s converted : Series) :
  to_datetime s = Ok converted -> to_datetime converted = Ok converted.
Proof.
  unfold NetflixExploratoryAnalysis.to_datetime.
  destruct (cells_to_datetime parse_datetime (s_values s)) as [ds|] eqn:E; [|discriminate].
  intros H. inversion H; subst converted. cbn [s_values s_index].
  rewrite (cells_to_datetime_idem _ _ E). reflexivity.
Qed.

Lemma has_column_setitem (df : DataFrame) (name : string) (s : Series) :
  has_column (setitem df name s) name = true.
Proof.
  unfold setitem. destruct (has_column df name) eqn:E.
  - unfold has_column, column_names in *. cbn [df_columns].
    induction (df_columns df) as [|[n c] cols IH]; cbn in *; [discriminate|].
    destruct (String.eqb name n) eqn:En; cbn; [rewrite En; reflexivity|].
    rewrite En. cbn. apply IH, E.
  - unfold has_column, column_names. cbn [df_columns].
    rewrite map_app, existsb_app. cbn. rewrite String.eqb_refl, orb_true_r. reflexivity.
Qed.

Lemma setitem_idem (df : DataFrame) (name : string) (s : Series) :
  has_column df name = true ->
  setitem (setitem df name s) name s = setitem df name s.
Proof.
  intros Hcol. unfold setitem at 1. rewrite has_column_setitem.
  unfold setitem. rewrite Hcol. cbn [df_index df_columns]. f_equal.
  rewrite map_map. apply map_ext. intros [n c]. cbn.
  destruct (String.eqb name n) eqn:E; cbn; rewrite E; reflexivity.
Qed.

(** [time_series_analysis] when the date column converts. *)
Lemma time_series_analysis_converted
    (self : Analyzer) (w : World) (df : DataFrame) (d v : string) (s converted : Series) :
  heap w !! data self = Some df ->
  getitem df d = Ok s ->
  to_datetime s = Ok converted ->
  time_series_analysis d v self w
  = (daily_aggregate (setitem df d converted) converted v, self,
     {| heap := <[data self := setitem df d converted]> (heap w);
        stdout := (stdout w ++ [MsgTimeSeries]
                   ++ match daily_aggregate (setitem df d converted) converted v with
                      | Ok _ => [PltShow]
                      | Raise _ => []
                      end)%list |}).
Proof.
  intros Hdf Hget Hconv.
  destruct (to_datetime_index parse_datetime s converted Hconv) as [Hidx Hty].
  destruct (getitem_index df d s Hget) as [Hidx' Hcol].
  assert (Hget' : getitem (setitem df d converted) d = Ok converted).
  { apply getitem_setitem; [exact Hcol|congruence]. }
  unfold NetflixExploratoryAnalysis.time_series_analysis, daily_aggregate. step_M.
  rewrite Hdf, Hget, Hconv. cbn [heap]. rewrite lookup_insert_eq, Hget'.
  destruct (getitem (setitem df d converted) v) as [vs|e].
  - destruct (groupby_agg (dt_date converted) vs); cbn; rewrite <- ?app_assoc; reflexivity.
  - reflexivity.
Qed.

(** Converting is idempotent: a second [time_series_analysis] on the same
    columns finds the date column converted, leaves the heap as the first
    call left it, and returns (or raises) what the first call did. *)
Theorem time_series_analysis_twice
    (self : Analyzer) (w : World) (df : DataFrame) (d v : string) (s converted : Series) :
  heap w !! data self = Some df ->
  getitem df d = Ok s ->
  to_datetime s = Ok converted ->
  heap (snd (time_series_analysis d v self (snd (time_series_analysis d v self w))))
  = heap (snd (time_series_analysis d v self w)) /\
  fst (time_series_analysis d v self (snd (time_series_analysis d v self w)))
  = fst (time_series_analysis d v self w).
Proof.
  intros Hdf Hget Hconv.
  destruct (to_datetime_index parse_datetime s converted Hconv) as [Hidx Hty].
  destruct (getitem_index df d s Hget) as [Hidx' Hcol].
  rewrite (time_series_analysis_converted self w df d v s converted Hdf Hget Hconv).
  cbn [snd].
  match goal with
  | |- context [time_series_analysis d v self ?w1] =>
      rewrite (time_series_analysis_converted self w1 (setitem df d converted) d v
                 converted converted)
  end.
  - rewrite (setitem_idem df d converted Hcol). cbn [snd fst heap].
    rewrite insert_insert_eq. split; reflexivity.
  - cbn [heap]. apply lookup_insert_eq.
  - apply getitem_setitem; [exact Hcol|congruence].
  - apply (to_datetime_idem s converted Hconv).
Qed.

(** The aggregate that [time_series_analysis] returns has one row per
    calendar day on which a record falls, in ascending order of the day:
    records of the same day with different times of day share a row.  The
    counts of the rows add up to the number of records that have both a
    date and a value. *)
Theorem time_series_analysis_daily_rows
    (self : Analyzer) (w : World) (df : DataFrame) (d v : string)
    (s converted values : Series) (rows : list TsRow) :
  heap w !! data self = Some df ->
  getitem df d = Ok s ->
  to_datetime s = Ok converted ->
  getitem (setitem df d converted) v = Ok values ->
  fst (fst (time_series_analysis d v self w)) = Ok rows ->
  StronglySorted Z.lt (map date rows) /\
  (forall day, In day (map date rows) <->
               exists ns, In (Date ns) (s_values converted) /\ date_of ns = day) /\
  list_sum (map count rows)
  = length (List.filter dated_value (combine (dt_date converted) (s_values values))).
Proof.
  intros Hdf Hget Hconv Hval Hrows.
  rewrite (time_series_analysis_converted self w df d v s converted Hdf Hget Hconv) in Hrows.
  cbn [fst] in Hrows. unfold daily_aggregate in Hrows. rewrite Hval in Hrows.
  unfold groupby_agg in Hrows. apply agg_groups_rows in Hrows as [Hdates Hcounts].
  rewrite Hdates, Hcounts. split; [apply group_keys_sorted|]. split.
  - intros day. rewrite group_keys_In. apply dt_date_In.
  - apply group_counts_sum.
    + apply sorted_lt_NoDup, group_keys_sorted.
    + intros day Hday. apply group_keys_In, Hday.
Qed.

End TimeSeries.

Lemma time_series_analysis_twice_witness :
  heap (snd (time_series_analysis parse_ns "started" "minutes" sessions_analyzer
               (snd (time_series_analysis parse_ns "started" "minutes"
                       sessions_analyzer sessions_world))))
  = heap (snd (time_series_analysis parse_ns "started" "minutes"
                 sessions_analyzer sessions_world)) /\
  fst (time_series_analysis parse_ns "started" "minutes" sessions_analyzer
         (snd (time_series_analysis parse_ns "started" "minutes"
                 sessions_analyzer sessions_world)))
  = fst (time_series_analysis parse_ns "started" "minutes" sessions_analyzer sessions_world).
Proof.
  apply (time_series_analysis_twice parse_ns sessions_analyzer sessions_world
           sessions_table "started" "minutes"
           {| s_index := [0; 1; 2]; s_dtype := Int64;
              s_values := [Num 3600000000000; Num 7200000000000; Num 90000000000000] |}
           sessions_converted).
  - reflexivity.
  - reflexivity.
  - reflexivity.
Defined.

Lemma time_series_analysis_daily_rows_witness :
  StronglySorted Z.lt [0; 1]%Z /\
  (forall day, In day [0; 1]%Z <->
               exists ns, In (Date ns) (s_values sessions_converted) /\ date_of ns = day) /\
  list_sum [2; 1]
  = length (List.filter dated_value
              (combine (dt_date sessions_converted) [Num 30; Num 45; Num 15])).
Proof.
  apply (time_series_analysis_daily_rows parse_ns sessions_analyzer sessions_world
           sessions_table "started" "minutes"
           {| s_index := [0; 1; 2]; s_dtype := Int64;
              s_values := [Num 3600000000000; Num 7200000000000; Num 90000000000000] |}
           sessions_converted
           {| s_index := [0; 1; 2]; s_dtype := Float64;
              s_values := [Num 30; Num 45; Num 15] |}
           [ {| date := 0; mean := Some (75 # 2); sum := 75; count := 2 |};
             {| date := 1; mean := Some 15%Q; sum := 15; count := 1 |} ]).
  - reflexivity.
  - reflexivity.
  - reflexivity.
  - reflexivity.
  - vm_compute. reflexivity.
Defined.

(** ** The IQR method in general *)











Lemma show_sample_first_rows_witness :
  exists l' sample,
    NetflixDataLoader.show_sample 2 loaded (world_of ratings_table)
    = (Ok (Some l'), loaded,
       {| heap := <[l' := sample]> (heap (world_of ratings_table)); stdout := [] |}) /\
    l' <> 0 /\
    column_names sample = column_names ratings_table /\
    rows sample = take 2 (rows ratings_table) /\
    len sample = Nat.min 2 (len ratings_table).
Proof.
  apply (show_sample_first_rows loaded (world_of ratings_table) 0 ratings_table 2).
  - reflexivity.
  - reflexivity.
Defined.

(** ** The shape of the analyzer's table *)

Section Shape.

Variable parse_datetime : cell -> result Z.
Variable Summary : Type.
Variable describe_stats : list (string * Column) -> result Summary.
Variable Corr : Type.
Variable corr : list (string * Column) -> string -> result Corr.

Abbreviation exec := (exec parse_datetime Summary describe_stats Corr corr).
Abbreviation run := (run parse_datetime Summary describe_stats Corr corr).

Lemma cells_to_datetime_length (cs ds : list cell) :
  cells_to_datetime parse_datetime cs = Ok ds -> length ds = length cs.
Proof.
  revert ds. induction cs as [|c cs IH]; intros ds H; cbn in H.
  - inversion H. reflexivity.
  - destruct (cell_to_datetime parse_datetime c); [|discriminate].
    destruct (cells_to_datetime parse_datetime cs) as [xs|]; [|discriminate].
    inversion H. cbn. rewrite (IH xs eq_refl). reflexivity.
Qed.

Lemma setitem_shape (df : DataFrame) (name : string) (s : Series) :
  has_column df name = true -> same_shape df (setitem df name s).
Proof.
  intros Hcol. unfold same_shape, setitem, column_names. rewrite Hcol.
  cbn [df_index df_columns]. split; [reflexivity|].
  rewrite map_map. apply map_ext. intros [n c]. cbn.
  destruct (String.eqb name n); reflexivity.
Qed.

Lemma setitem_rectangular (df : DataFrame) (name : string) (s : Series) :
  has_column df name = true ->
  length (s_values s) = len df ->
  rectangular df -> rectangular (setitem df name s).
Proof.
  intros Hcol Hlen Hrect. unfold rectangular, setitem, len in *. rewrite Hcol.
  cbn [df_index df_columns]. rewrite Forall_forall in Hrect. rewrite Forall_forall.
  intros c Hc. apply list_elem_of_fmap in Hc as ([n c0] & -> & Hin). cbn.
  destruct (String.eqb name n); cbn; [exact Hlen|apply (Hrect _ Hin)].
Qed.

(** What one call does to the analyzer's table: nothing, or the
    replacement of an existing column by its converted form. *)
Lemma exec_table (c : call) (self : Analyzer) (w : World) (df : DataFrame) :
  heap w !! data self = Some df ->
  snd (fst (exec c self w)) = self /\
  exists df',
    heap (snd (exec c self w)) !! data self = Some df' /\
    same_shape df df' /\
    (rectangular df -> rectangular df').
Proof.
  intros Hdf. destruct (is_time_series c) eqn:E.
  - destruct c as [| | | | |d v]; try discriminate. cbn [NetflixExploratoryAnalysis.exec].
    destruct (getitem df d) as [s|e] eqn:Hget.
    + destruct (NetflixExploratoryAnalysis.to_datetime parse_datetime s)
        as [converted|e] eqn:Hconv.
      * unfold mbind, M_bind.
        rewrite (time_series_analysis_converted parse_datetime self w df d v s converted
                   Hdf Hget Hconv).
        destruct (getitem_index df d s Hget) as [Hidx Hcol].
        assert (Hlen : length (s_values converted) = length (s_values s)).
        { unfold NetflixExploratoryAnalysis.to_datetime in Hconv.
          destruct (cells_to_datetime parse_datetime (s_values s)) as [ds|] eqn:Ec;
            [|discriminate].
          inversion Hconv. cbn. apply (cells_to_datetime_length _ _ Ec). }
        destruct (daily_aggregate (setitem df d converted) converted v) as [rows|e];
          cbn [fst snd mret M_ret heap]; (split; [reflexivity|]);
          exists (setitem df d converted); (split; [apply lookup_insert_eq|]);
          (split; [apply setitem_shape, Hcol|]);
          intros Hrect; apply setitem_rectangular; auto;
          rewrite Hlen; unfold getitem in Hget;
          destruct (find_column df d) as [c0|] eqn:Ef; try discriminate;
          inversion Hget; cbn; apply (rectangular_column df d c0 Hrect Ef).
      * unfold NetflixExploratoryAnalysis.time_series_analysis. step_M.
        rewrite Hdf, Hget, Hconv. cbn. split; [reflexivity|].
        exists df. split; [exact Hdf|]. split; [split; reflexivity|auto].
    + unfold NetflixExploratoryAnalysis.time_series_analysis. step_M.
      rewrite Hdf, Hget. cbn. split; [reflexivity|].
      exists df. split; [exact Hdf|]. split; [split; reflexivity|auto].
  - destruct (exec_read_only parse_datetime Summary describe_stats Corr corr c self E w)
      as [Hs Hh].
    split; [exact Hs|]. exists df. unfold same_heap in Hh. rewrite Hh.
    split; [exact Hdf|]. split; [split; reflexivity|auto].
Qed.

(** Whatever calls are made on an analyzer, its table keeps its shape: no
    call adds, removes, renames or reorders a column or a row label, and
    the table stays well formed.  So every column the constructor
    classified is still there, however stale its classification. *)
Theorem analyzer_table_keeps_shape
    (cs : list call) (self : Analyzer) (w : World) (df : DataFrame) :
  heap w !! data self = Some df ->
  fst (run cs self w) = self /\
  exists df',
    heap (snd (run cs self w)) !! data self = Some df' /\
    same_shape df df' /\
    (rectangular df -> rectangular df').
Proof.
  revert w df. induction cs as [|c cs IH]; intros w df Hdf; cbn [NetflixExploratoryAnalysis.run].
  - split; [reflexivity|]. exists df. split; [exact Hdf|]. split; [split; reflexivity|auto].
  - destruct (exec_table c self w df Hdf) as (Hs & df1 & Hdf1 & [Hi1 Hn1] & Hr1).
    destruct (exec c self w) as [[r self'] w1]. cbn [fst snd] in *. subst self'.
    destruct (IH w1 df1 Hdf1) as (Hs' & df2 & Hdf2 & [Hi2 Hn2] & Hr2).
    split; [exact Hs'|]. exists df2. split; [exact Hdf2|].
    split; [split; congruence|auto].
Qed.

End Shape.

Lemma analyzer_table_keeps_shape_witness :
  fst (run parse_ns unit no_summary unit no_corr
         [TimeSeriesAnalysis "started" "minutes"; DetectOutliers "started" "iqr";
          TimeSeriesAnalysis "minutes" "started"; CategoricalAnalysis]
         sessions_analyzer sessions_world) = sessions_analyzer /\
  exists df',
    heap (snd (run parse_ns unit no_summary unit no_corr
                 [TimeSeriesAnalysis "started" "minutes"; DetectOutliers "started" "iqr";
                  TimeSeriesAnalysis "minutes" "started"; CategoricalAnalysis]
                 sessions_analyzer sessions_world)) !! 1 = Some df' /\
    same_shape sessions_table df' /\
    (rectangular sessions_table -> rectangular df').
Proof.
  apply (analyzer_table_keeps_shape parse_ns unit no_summary unit no_corr _
           sessions_analyzer sessions_world sessions_table).
  reflexivity.
Defined.

(** ** The order of the quantiles *)

Section QuantileOrder.

Local Open Scope Q_scope.




End QuantileOrder.



End AnalyzerCalls.

(** * The dictionary of [get_basic_info] *)

Section BasicInfoFacts.

Import NetflixDataLoader.

Lemma list_sum_zero_Forall {A} (f : A -> nat) (xs : list A) :
  list_sum (map f xs) = 0 <-> List.Forall (fun x => f x = 0) xs.
Proof.
  induction xs as [|x xs IH]; cbn.
  - split; [constructor|reflexivity].
  - fold (list_sum (map f xs)). split.
    + intros H. constructor; [lia|]. apply IH. lia.
    + intros H. inversion H as [|? ? Hx Hxs]; subst. apply IH in Hxs. lia.
Qed.

(** A frame has no missing entry exactly when no row has one. *)
Lemma total_missing_rows (df : DataFrame) :
  rectangular df -> (total_missing df = 0 <-> rows_with_missing df = 0).
Proof.
  intros Hrect. split.
  - intros Hmiss.
    assert (Hid : DataFrame_dropna df = df).
    { unfold DataFrame_dropna. rewrite complete_rows_all by assumption.
      apply mask_all_id, Hrect. }
    pose proof (dropna_len df Hrect) as Hlen. rewrite Hid in Hlen. lia.
  - intros Hrows.
    assert (Hall : complete_rows df = repeat true (len df)).
    { rewrite complete_rows_rows by exact Hrect. rewrite <- (rows_length df).
      unfold rows_with_missing in Hrows.
      induction (rows df) as [|r rs IH]; cbn in *; [reflexivity|].
      destruct (row_has_missing r); cbn in *; [discriminate|].
      rewrite IH by exact Hrows. reflexivity. }
    assert (Hid : DataFrame_dropna df = df).
    { unfold DataFrame_dropna. rewrite Hall. apply mask_all_id, Hrect. }
    rewrite <- Hid. apply dropna_total_missing.
Qed.

(** On a loaded table whose column names are distinct (as [pd.read_csv]
    makes them, so that the dictionaries have one key per column),
    [get_basic_info] prints nothing and changes nothing; ['columns'] is
    the length of ['column_names']; ['missing_values'] has one count per
    column, in the order of the columns; no count exceeds ['rows']; and
    all the counts are zero exactly when no row of the table has a missing
    entry. *)
Theorem get_basic_info_missing_counts
    (self : Loader) (w : World) (l : loc) (df : DataFrame) :
  data self = Some l ->
  heap w !! l = Some df ->
  rectangular df ->
  NoDup (column_names df) ->
  exists info,
    get_basic_info self w = (Ok (Some info), self, w) /\
    info_rows info = len df /\
    info_columns info = length (info_column_names info) /\
    map fst (info_missing_values info) = info_column_names info /\
    List.Forall (fun e => snd e <= info_rows info) (info_missing_values info) /\
    (List.Forall (fun e => snd e = 0) (info_missing_values info)
     <-> rows_with_missing df = 0).
Proof.
  intros Hdata Hl Hrect _. unfold get_basic_info. step_M. rewrite Hdata, Hl.
  eexists. split; [reflexivity|]. cbn [info_rows info_columns info_column_names
                                       info_missing_values].
  split; [reflexivity|]. split; [|split; [|split]].
  - unfold column_names. rewrite length_map. reflexivity.
  - unfold missing_values, column_names. rewrite map_map. reflexivity.
  - unfold missing_values. apply List.Forall_forall. intros e He.
    apply in_map_iff in He as (c & <- & Hc). cbn [snd].
    unfold rectangular in Hrect. rewrite Forall_forall in Hrect.
    rewrite <- (Hrect c) by (apply list_elem_of_In, Hc).
    unfold count_na. apply List.filter_length_le.
  - rewrite <- (total_missing_rows df Hrect). unfold total_missing.
    symmetry. apply list_sum_zero_Forall.
Qed.

Lemma get_basic_info_missing_counts_witness :
  exists info,
    get_basic_info loaded (world_of ratings_table)
    = (Ok (Some info), loaded, world_of ratings_table) /\
    info_rows info = len ratings_table /\
    info_columns info = length (info_column_names info) /\
    map fst (info_missing_values info) = info_column_names info /\
    List.Forall (fun e => snd e <= info_rows info) (info_missing_values info) /\
    (List.Forall (fun e => snd e = 0) (info_missing_values info)
     <-> rows_with_missing ratings_table = 0).
Proof.
  apply (get_basic_info_missing_counts loaded (world_of ratings_table) 0 ratings_table).
  - reflexivity.
  - reflexivity.
  - repeat constructor.
  - apply (bool_decide_unpack _). vm_compute. reflexivity.
Defined.

End BasicInfoFacts.
